(** * ts-result: the [Ok] / [Err] classes and [Result.run] / [Result.runAsync]

    A shallow embedding of class [Ok] (src/unnamed/part_002), class [Err]
    (src/unnamed/part_001) and namespace [Result] (src/lib/Result.ts).
    JavaScript objects have identity, methods may
    [return this], [new] allocates, user callbacks may have effects and may
    throw; so the embedding is a state-and-exception monad over a store of
    objects, and a [Result] is a reference into that store. *)

From Stdlib Require Import ZArith.
From stdpp Require Import base option list strings.

(** ** Values and the object store *)

Definition loc := nat.

(** Runtime values.  The library never inspects a payload or an error, so the
    universe only has to be rich enough for the values the tests and the
    documentation use: primitives and references to objects.  Numbers are
    the integers of the tests; no arithmetic is done on them by the library. *)
Inductive val : Type :=
  | VUndefined
  | VNull
  | VBool (b : bool)
  | VNum (n : Z)
  | VStr (s : string)
  | VObj (l : loc).

(** What a reference can point to: an instance of class [Ok] with its private
    field [#value], an instance of class [Err] with its private field
    [#error], or a built-in error object ([new Error(message)], or the
    [TypeError] the language raises when a private field is read on an object
    of another class). *)
Inductive obj : Type :=
  | OOk (value : val)
  | OErr (error : val)
  | OError (name message : string).

(** The store, and the caller's own observable state: a counter that
    instrumented callbacks bump (see [counted]). *)
Record state : Type := State { heap : list obj; calls : nat }.

Definition initial : state := State [] 0.

(** ** Computations: state passing with exceptions *)

Inductive outcome (A : Type) : Type :=
  | Normal (a : A)
  | Thrown (e : val).
Arguments Normal {A} a.
Arguments Thrown {A} e.

Definition JS (A : Type) : Type := state → outcome A * state.

#[global] Instance JS_ret : MRet JS := λ A a s, (Normal a, s).

#[global] Instance JS_bind : MBind JS := λ A B k m s,
  match m s with
  | (Normal a, s') => k a s'
  | (Thrown e, s') => (Thrown e, s')
  end.

(** [throw e] *)
Definition throw {A} (e : val) : JS A := λ s, (Thrown e, s).

(** [try { body } catch (error) { handler(error) }] *)
Definition try_catch {A} (body : JS A) (handler : val → JS A) : JS A := λ s,
  match body s with
  | (Normal a, s') => (Normal a, s')
  | (Thrown e, s') => handler e s'
  end.

(** [new C(...)]: the object gets the next free reference. *)
Definition alloc (o : obj) : JS val := λ s,
  (Normal (VObj (length (heap s))), State (heap s ++ [o]) (calls s)).

(** [new Error(message)] *)
Definition new_Error (message : string) : JS val := alloc (OError "Error" message).

(** The language's failure when [this.#field] is read on an object whose class
    did not declare the field. *)
Definition brand_check_failure {A} (field : string) : JS A :=
  e ← alloc (OError "TypeError"
        ("Cannot read private member " +:+ field
           +:+ " from an object whose class did not declare it"));
  throw e.

(** The language's failure when a method is looked up on something that has
    none of that name. *)
Definition not_a_function {A} (method : string) : JS A :=
  e ← alloc (OError "TypeError" (method +:+ " is not a function"));
  throw e.

(** A callback instrumented with a call counter. *)
Definition tick : JS () := λ s, (Normal (), State (heap s) (S (calls s))).

Definition counted {A B} (f : A → JS B) : A → JS B := λ a, tick;; f a.

Definition counted0 {A} (fn : JS A) : JS A := tick;; fn.

(** A callback that is an ordinary total function without effects. *)
Definition pure_fn (g : val → val) : val → JS val := λ v, mret (g v).

(** ** class Ok (src/unnamed/part_002) *)
Module Ok.

(** [constructor(value: T) { this.#value = value; }] under [new]. *)
Definition new (value : val) : JS val := alloc (OOk value).

(** [this.#value] *)
Definition get_value (this : val) : JS val := λ s,
  match this with
  | VObj l =>
      match heap s !! l with
      | Some (OOk v) => (Normal v, s)
      | _ => brand_check_failure "#value" s
      end
  | _ => brand_check_failure "#value" s
  end.

(** [and(res) { return res; }] *)
Definition and (this : val) (res : val) : JS val := mret res.

(** [andThen(fn) { return fn(this.#value); }] *)
Definition andThen (this : val) (fn : val → JS val) : JS val :=
  v ← get_value this; fn v.

(** [isOk() { return true; }] *)
Definition isOk (this : val) : JS val := mret (VBool true).

(** [isError() { return false; }] *)
Definition isError (this : val) : JS val := mret (VBool false).

(** [map(fn) { return new Ok(fn(this.#value)); }] *)
Definition map (this : val) (fn : val → JS val) : JS val :=
  v ← get_value this; u ← fn v; new u.

(** [mapError(_) { return this; }] *)
Definition mapError (this : val) (_fn : val → JS val) : JS val :=
  mret this.

(** [unwrap() { return this.#value; }] *)
Definition unwrap (this : val) : JS val := get_value this.

(** [unwrapError() { throw new Error('Called unwrapError on an Ok value'); }] *)
Definition unwrapError (this : val) : JS val :=
  e ← new_Error "Called unwrapError on an Ok value"; throw e.

(** [unwrapOr(_) { return this.#value; }] *)
Definition unwrapOr (this : val) (_defaultValue : val) : JS val :=
  get_value this.

End Ok.

(** ** class Err (src/unnamed/part_001) *)
Module Err.

(** [constructor(error: E) { this.#error = error; }] under [new]. *)
Definition new (error : val) : JS val := alloc (OErr error).

(** [this.#error] *)
Definition get_error (this : val) : JS val := λ s,
  match this with
  | VObj l =>
      match heap s !! l with
      | Some (OErr e) => (Normal e, s)
      | _ => brand_check_failure "#error" s
      end
  | _ => brand_check_failure "#error" s
  end.

(** [and(_) { return this; }] *)
Definition and (this : val) (_res : val) : JS val := mret this.

(** [andThen(_) { return this; }] *)
Definition andThen (this : val) (_fn : val → JS val) : JS val :=
  mret this.

(** [isOk() { return false; }] *)
Definition isOk (this : val) : JS val := mret (VBool false).

(** [isError() { return true; }] *)
Definition isError (this : val) : JS val := mret (VBool true).

(** [map(_) { return this; }] *)
Definition map (this : val) (_fn : val → JS val) : JS val :=
  mret this.

(** [mapError(fn) { return new Err(fn(this.#error)); }] *)
Definition mapError (this : val) (fn : val → JS val) : JS val :=
  e ← get_error this; e2 ← fn e; new e2.

(** [unwrap() { throw new Error('Called unwrap on an Err value'); }] *)
Definition unwrap (this : val) : JS val :=
  e ← new_Error "Called unwrap on an Err value"; throw e.

(** [unwrapError() { return this.#error; }] *)
Definition unwrapError (this : val) : JS val := get_error this.

(** [unwrapOr(defaultValue) { return defaultValue; }] *)
Definition unwrapOr (this : val) (defaultValue : val) : JS val :=
  mret defaultValue.

End Err.

(** ** interface Result and namespace Result (src/lib/Result.ts) *)

(** The eventual settlement of a promise.  [Pending] is a promise that never
    settles.  Reactions registered with [then] and [catch] are run on the
    settlement in the order the program registers them; the scheduling of
    the job queue is not part of the model. *)
Inductive promise : Type :=
  | Pending
  | Fulfilled (v : val)
  | Rejected (e : val).

(** The promise a reaction's outcome settles: its return value fulfils, what it
    throws rejects.  This is also the call of an [async] function whose body
    returns a plain value. *)
Definition settle (reaction : JS val) : JS promise := λ s,
  match reaction s with
  | (Normal v, s') => (Normal (Fulfilled v), s')
  | (Thrown e, s') => (Normal (Rejected e), s')
  end.

(** [p.then(onFulfilled)] *)
Definition promise_then (p : promise) (onFulfilled : val → JS val) : JS promise :=
  match p with
  | Fulfilled v => settle (onFulfilled v)
  | Rejected e => mret (Rejected e)
  | Pending => mret Pending
  end.

(** [p.catch(onRejected)] *)
Definition promise_catch (p : promise) (onRejected : val → JS val) : JS promise :=
  match p with
  | Fulfilled v => mret (Fulfilled v)
  | Rejected e => settle (onRejected e)
  | Pending => mret Pending
  end.

(** [async function () { body }] whose body returns a promise: the call never
    throws; a throw in the body rejects the returned promise, a returned
    promise is adopted. *)
Definition async_function (body : JS promise) : JS promise := λ s,
  match body s with
  | (Normal p, s') => (Normal p, s')
  | (Thrown e, s') => (Normal (Rejected e), s')
  end.

Module Result.

(** A call [r.m(...)] through the interface: the method is the one of the
    class of the object [r] refers to. *)
Definition dispatch {A} (method : string) (r : val) (ok err : JS A) : JS A := λ s,
  match r with
  | VObj l =>
      match heap s !! l with
      | Some (OOk _) => ok s
      | Some (OErr _) => err s
      | _ => not_a_function method s
      end
  | _ => not_a_function method s
  end.

Definition and (r res : val) : JS val :=
  dispatch "and" r (Ok.and r res) (Err.and r res).
Definition andThen (r : val) (fn : val → JS val) : JS val :=
  dispatch "andThen" r (Ok.andThen r fn) (Err.andThen r fn).
Definition isOk (r : val) : JS val :=
  dispatch "isOk" r (Ok.isOk r) (Err.isOk r).
Definition isError (r : val) : JS val :=
  dispatch "isError" r (Ok.isError r) (Err.isError r).
Definition map (r : val) (fn : val → JS val) : JS val :=
  dispatch "map" r (Ok.map r fn) (Err.map r fn).
Definition mapError (r : val) (fn : val → JS val) : JS val :=
  dispatch "mapError" r (Ok.mapError r fn) (Err.mapError r fn).
Definition unwrap (r : val) : JS val :=
  dispatch "unwrap" r (Ok.unwrap r) (Err.unwrap r).
Definition unwrapError (r : val) : JS val :=
  dispatch "unwrapError" r (Ok.unwrapError r) (Err.unwrapError r).
Definition unwrapOr (r defaultValue : val) : JS val :=
  dispatch "unwrapOr" r (Ok.unwrapOr r defaultValue) (Err.unwrapOr r defaultValue).

(** [try { return new Ok(fn()); } catch (error) { return new Err(error as Error); }]
    The [as Error] is a type assertion and has no runtime counterpart. *)
Definition run (fn : JS val) : JS val :=
  try_catch (v ← fn; Ok.new v) (λ error, Err.new error).

(** [async function runAsync(fn) {
       return fn().then((value) => new Ok(value))
                  .catch((error) => new Err(error as Error)); }] *)
Definition runAsync (fn : JS promise) : JS promise :=
  async_function
    (p ← fn;
     q ← promise_then p (λ value, Ok.new value);
     promise_catch q (λ error, Err.new error)).

End Result.

(** ** Vocabulary of the statements *)

(** [r] refers to an [Ok] instance wrapping [v] / an [Err] instance wrapping [e]. *)
Definition is_Ok (s : state) (r : val) (v : val) : Prop :=
  ∃ l, r = VObj l ∧ heap s !! l = Some (OOk v).

Definition is_Err (s : state) (r : val) (e : val) : Prop :=
  ∃ l, r = VObj l ∧ heap s !! l = Some (OErr e).

Definition is_result (o : obj) : bool :=
  match o with
  | OOk _ | OErr _ => true
  | OError _ _ => false
  end.

(** [r] refers to an instance of one of the two classes. *)
Definition is_Result (s : state) (r : val) : Prop :=
  ∃ l o, r = VObj l ∧ heap s !! l = Some o ∧ is_result o = true.

(** The reference was not in use in [s]: the object it names in a later state
    is a new one. *)
Definition fresh (s : state) (r : val) : Prop :=
  ∃ l, r = VObj l ∧ heap s !! l = None.

(** Every [Ok] and [Err] instance of [s] is still there in [s'], of the same
    class and with the same field. *)
Definition results_frozen (s s' : state) : Prop :=
  ∀ l o, heap s !! l = Some o → is_result o = true → heap s' !! l = Some o.

(** Code outside the two classes cannot write [#value] or [#error]: whatever a
    callback does, it leaves the existing instances as they are. *)
Definition preserves_results {A} (c : JS A) : Prop :=
  ∀ s, results_frozen s (c s).2.

Definition encapsulated {A B} (f : A → JS B) : Prop :=
  ∀ a, preserves_results (f a).

(** Running [c] from [s] leaves the object [r] refers to as it was. *)
Definition unchanged_by {A} (c : JS A) (s : state) (r : val) : Prop :=
  ∀ l, r = VObj l → heap (c s).2 !! l = heap s !! l.

(** The message of the error object a computation throws, if it throws one. *)
Definition thrown_message {A} (c : JS A) (s : state) : option string :=
  match c s with
  | (Thrown (VObj l), s') =>
      match heap s' !! l with
      | Some (OError _ message) => Some message
      | _ => None
      end
  | _ => None
  end.

(** The computation completes without throwing. *)
Definition returns {A} (c : JS A) (s : state) : Prop :=
  ∃ a s', c s = (Normal a, s').

(** Whatever the computation throws was thrown by the callback it ran. *)
Definition throws_only_what {A B} (c : JS A) (callback : JS B) (s : state) : Prop :=
  ∀ e s', c s = (Thrown e, s') → callback s = (Thrown e, s').

(** ** Chains of calls *)

(** One link of a chain [r.m1(a1).m2(a2)...]: a call of one of the four
    chaining methods of the interface with its argument. *)
Inductive link : Type :=
  | LAnd (res : val)
  | LAndThen (fn : val → JS val)
  | LMap (fn : val → JS val)
  | LMapError (fn : val → JS val).

(** [r.m(a)] *)
Definition call (r : val) (k : link) : JS val :=
  match k with
  | LAnd res => Result.and r res
  | LAndThen fn => Result.andThen r fn
  | LMap fn => Result.map r fn
  | LMapError fn => Result.mapError r fn
  end.

(** [r.m1(a1).m2(a2)...]: each call is made on what the one before returned. *)
Fixpoint chain (r : val) (ks : list link) : JS val :=
  match ks with
  | [] => mret r
  | k :: ks' => x ← call r k; chain x ks'
  end.

(** The links that work on the value, and the one that works on the error. *)
Definition on_value (k : link) : bool :=
  match k with
  | LMapError _ => false
  | _ => true
  end.

Definition on_error (k : link) : bool :=
  match k with
  | LMapError _ => true
  | _ => false
  end.

(** The same link with its callback instrumented. *)
Definition counted_link (k : link) : link :=
  match k with
  | LAnd res => LAnd res
  | LAndThen fn => LAndThen (counted fn)
  | LMap fn => LMap (counted fn)
  | LMapError fn => LMapError (counted fn)
  end.

Definition link_encapsulated (k : link) : Prop :=
  match k with
  | LAnd _ => True
  | LAndThen fn | LMap fn | LMapError fn => encapsulated fn
  end.

(** A store with one instance of each class, for examples. *)
Definition two_results : state :=
  State [OOk (VNum 42); OErr (VStr "Something went wrong")] 0.

(** ** Basic facts about the monad and the store *)

Lemma bind_normal {A B} (m : JS A) (k : A → JS B) s a s' :
  m s = (Normal a, s') → (m ≫= k) s = k a s'.
Proof. intros H. unfold mbind, JS_bind. by rewrite H. Qed.

Lemma bind_thrown {A B} (m : JS A) (k : A → JS B) s e s' :
  m s = (Thrown e, s') → (m ≫= k) s = (Thrown e, s').
Proof. intros H. unfold mbind, JS_bind. by rewrite H. Qed.

Lemma ret_run {A} (a : A) s : (mret a : JS A) s = (Normal a, s).
Proof. reflexivity. Qed.

Lemma alloc_run o s :
  alloc o s = (Normal (VObj (length (heap s))), State (heap s ++ [o]) (calls s)).
Proof. reflexivity. Qed.

Lemma lookup_alloc_new (h : list obj) o : (h ++ [o]) !! length h = Some o.
Proof. by rewrite lookup_app_r, Nat.sub_diag. Qed.

Lemma lookup_alloc_old (h : list obj) o l x :
  h !! l = Some x → (h ++ [o]) !! l = Some x.
Proof. intros H. by apply lookup_app_l_Some. Qed.

Lemma lookup_next_free (h : list obj) : h !! length h = None.
Proof. by apply lookup_ge_None. Qed.

Lemma results_frozen_refl s : results_frozen s s.
Proof. by intros l o H _. Qed.

Lemma results_frozen_trans s1 s2 s3 :
  results_frozen s1 s2 → results_frozen s2 s3 → results_frozen s1 s3.
Proof. intros H12 H23 l o H Ho. apply H23; [by apply H12 | done]. Qed.

Lemma results_frozen_alloc o s : results_frozen s (alloc o s).2.
Proof. intros l x H _. simpl. by apply lookup_alloc_old. Qed.

Lemma results_frozen_tick s : results_frozen s (tick s).2.
Proof. by intros l o H _. Qed.

Lemma is_Ok_frozen s s' r v : is_Ok s r v → results_frozen s s' → is_Ok s' r v.
Proof. intros (l & -> & H) Hf. exists l. split; [done | by apply Hf]. Qed.

Lemma is_Err_frozen s s' r e : is_Err s r e → results_frozen s s' → is_Err s' r e.
Proof. intros (l & -> & H) Hf. exists l. split; [done | by apply Hf]. Qed.

Lemma is_Ok_inj s r v v' : is_Ok s r v → is_Ok s r v' → v = v'.
Proof. intros (l & -> & H) (l' & [= <-] & H'). congruence. Qed.

Lemma is_Ok_not_Err s r v e : is_Ok s r v → is_Err s r e → False.
Proof. intros (l & -> & H) (l' & [= <-] & H'). congruence. Qed.

Lemma fresh_not_Ok s r v : fresh s r → ¬ is_Ok s r v.
Proof. intros (l & -> & H) (l' & [= <-] & H'). congruence. Qed.

Lemma fresh_not_Err s r e : fresh s r → ¬ is_Err s r e.
Proof. intros (l & -> & H) (l' & [= <-] & H'). congruence. Qed.

(** ** The constructors *)

Lemma is_Ok_alloc h c w : is_Ok (State (h ++ [OOk w]) c) (VObj (length h)) w.
Proof. exists (length h). split; [done | apply lookup_alloc_new]. Qed.

Lemma is_Err_alloc h c w : is_Err (State (h ++ [OErr w]) c) (VObj (length h)) w.
Proof. exists (length h). split; [done | apply lookup_alloc_new]. Qed.

Lemma fresh_next s : fresh s (VObj (length (heap s))).
Proof. eexists. split; [done | apply lookup_next_free]. Qed.

Lemma Ok_new_bind {A} v (k : val → JS A) s :
  (x ← Ok.new v; k x) s
  = k (VObj (length (heap s))) (State (heap s ++ [OOk v]) (calls s)).
Proof. reflexivity. Qed.

Lemma Err_new_bind {A} e (k : val → JS A) s :
  (x ← Err.new e; k x) s
  = k (VObj (length (heap s))) (State (heap s ++ [OErr e]) (calls s)).
Proof. reflexivity. Qed.

Lemma Ok_new_spec v s :
  ∃ r s', Ok.new v s = (Normal r, s') ∧ fresh s r ∧ is_Ok s' r v
          ∧ results_frozen s s' ∧ calls s' = calls s.
Proof.
  eexists _, _. split; [reflexivity |]. repeat split.
  - eexists. split; [done | apply lookup_next_free].
  - eexists. split; [done | apply lookup_alloc_new].
  - apply (results_frozen_alloc (OOk v)).
Qed.

Lemma Err_new_spec e s :
  ∃ r s', Err.new e s = (Normal r, s') ∧ fresh s r ∧ is_Err s' r e
          ∧ results_frozen s s' ∧ calls s' = calls s.
Proof.
  eexists _, _. split; [reflexivity |]. repeat split.
  - eexists. split; [done | apply lookup_next_free].
  - eexists. split; [done | apply lookup_alloc_new].
  - apply (results_frozen_alloc (OErr e)).
Qed.

(** ** Reading the private fields *)

Lemma get_value_Ok s r v : is_Ok s r v → Ok.get_value r s = (Normal v, s).
Proof. intros (l & -> & H). unfold Ok.get_value. by rewrite H. Qed.

Lemma get_error_Err s r e : is_Err s r e → Err.get_error r s = (Normal e, s).
Proof. intros (l & -> & H). unfold Err.get_error. by rewrite H. Qed.

(** ** Dispatch through the interface *)

Lemma dispatch_Ok {A} m r (ok err : JS A) s v :
  is_Ok s r v → Result.dispatch m r ok err s = ok s.
Proof. intros (l & -> & H). unfold Result.dispatch. by rewrite H. Qed.

Lemma dispatch_Err {A} m r (ok err : JS A) s e :
  is_Err s r e → Result.dispatch m r ok err s = err s.
Proof. intros (l & -> & H). unfold Result.dispatch. by rewrite H. Qed.

Lemma is_Result_cases s r :
  is_Result s r ↔ (∃ v, is_Ok s r v) ∨ (∃ e, is_Err s r e).
Proof.
  split.
  - intros (l & o & -> & H & Ho). destruct o as [v | e | n m]; [| | done].
    + left. exists v, l. done.
    + right. exists e, l. done.
  - intros [(v & l & -> & H) | (e & l & -> & H)]; eexists l, _; done.
Qed.

Lemma Result_unwrap_Ok s r v : is_Ok s r v → Result.unwrap r s = (Normal v, s).
Proof.
  intros H. unfold Result.unwrap. rewrite (dispatch_Ok _ _ _ _ _ _ H).
  by apply get_value_Ok.
Qed.

Lemma Result_unwrapError_Err s r e :
  is_Err s r e → Result.unwrapError r s = (Normal e, s).
Proof.
  intros H. unfold Result.unwrapError. rewrite (dispatch_Err _ _ _ _ _ _ H).
  by apply get_error_Err.
Qed.

(** ** The unit tests of the repository, evaluated *)

(** Ok.test.ts, [andThen]: [new Ok(42).andThen((value) => new Ok(value + 1)).unwrap()] is 43. *)
Example test_Ok_andThen :
  (r ← Ok.new (VNum 42);
   r' ← Ok.andThen r (λ value, match value with
                               | VNum n => Ok.new (VNum (n + 1))
                               | _ => Ok.new VUndefined
                               end);
   Ok.unwrap r') initial
  = (Normal (VNum 43), State [OOk (VNum 42); OOk (VNum 43)] 0).
Proof. reflexivity. Qed.

(** Ok.test.ts, [and]: [new Ok(42).and(new Ok('hello')).unwrap()] is ['hello']. *)
Example test_Ok_and :
  (result1 ← Ok.new (VNum 42);
   result2 ← Ok.new (VStr "hello");
   combined ← Result.and result1 result2;
   Result.unwrap combined) initial
  = (Normal (VStr "hello"), State [OOk (VNum 42); OOk (VStr "hello")] 0).
Proof. reflexivity. Qed.

(** Ok.test.ts, [unwrapError]: throws ['Called unwrapError on an Ok value']. *)
Example test_Ok_unwrapError :
  thrown_message (result ← Ok.new (VNum 42); Result.unwrapError result) initial
  = Some "Called unwrapError on an Ok value".
Proof. reflexivity. Qed.

(** Err.test.ts, [and]: [new Err(msg).and(new Ok(42)).unwrapError()] is [msg]. *)
Example test_Err_and :
  (errorResult ← Err.new (VStr "Something went wrong");
   anotherResult ← Ok.new (VNum 42);
   combined ← Result.and errorResult anotherResult;
   Result.unwrapError combined) initial
  = (Normal (VStr "Something went wrong"),
     State [OErr (VStr "Something went wrong"); OOk (VNum 42)] 0).
Proof. reflexivity. Qed.

(** Err.test.ts, [mapError]: [new Err(msg).mapError((_) => 'New error').unwrapError()]. *)
Example test_Err_mapError :
  (errorResult ← Err.new (VStr "Something went wrong");
   newErrorResult ← Result.mapError errorResult (λ _, mret (VStr "New error"));
   Result.unwrapError newErrorResult) initial
  = (Normal (VStr "New error"),
     State [OErr (VStr "Something went wrong"); OErr (VStr "New error")] 0).
Proof. reflexivity. Qed.

(** Err.test.ts, [unwrap]: throws ['Called unwrap on an Err value']. *)
Example test_Err_unwrap :
  thrown_message (errorResult ← Err.new (VStr "Something went wrong");
                  Result.unwrap errorResult) initial
  = Some "Called unwrap on an Err value".
Proof. reflexivity. Qed.

(** Result.test.ts, [run]: [Result.run(() => 'Success')]. *)
Example test_run_Ok :
  (result ← Result.run (mret (VStr "Success"));
   b ← Result.isOk result;
   v ← Result.unwrap result;
   mret (b, v)) initial
  = (Normal (VBool true, VStr "Success"), State [OOk (VStr "Success")] 0).
Proof. reflexivity. Qed.

(** Result.test.ts, [run]: [Result.run(() => { throw new Error('Failure'); })]. *)
Example test_run_Err :
  (result ← Result.run (e ← new_Error "Failure"; throw e);
   b ← Result.isError result;
   e ← Result.unwrapError result;
   mret (b, e)) initial
  = (Normal (VBool true, VObj 0),
     State [OError "Error" "Failure"; OErr (VObj 0)] 0).
Proof. reflexivity. Qed.

(** Result.test.ts, [runAsync]: [await Result.runAsync(async () => 'Success')]. *)
Example test_runAsync_Ok :
  Result.runAsync (settle (mret (VStr "Success"))) initial
  = (Normal (Fulfilled (VObj 0)), State [OOk (VStr "Success")] 0).
Proof. reflexivity. Qed.

(** Result.test.ts, [runAsync]:
    [await Result.runAsync(async () => { throw new Error('Failure'); })]. *)
Example test_runAsync_Err :
  Result.runAsync (settle (e ← new_Error "Failure"; throw e)) initial
  = (Normal (Fulfilled (VObj 1)),
     State [OError "Error" "Failure"; OErr (VObj 0)] 0).
Proof. reflexivity. Qed.

(** ** Extraction and the two predicates *)

(** C7.  On an [Ok] instance wrapping [v], in whatever state: [unwrap()]
    returns [v] and does not throw, [unwrapOr(d)] returns [v] for every
    default [d], [isOk()] is [true] and [isError()] is [false]; none of them
    changes the state, and the same holds when the methods are reached
    through the [Result] interface.  In particular this is so on the instance
    [new Ok(v)] has just made. *)
Theorem Ok_unwrap_unwrapOr_isOk_isError v d :
  (∀ s r, is_Ok s r v →
     Ok.unwrap r s = (Normal v, s)
     ∧ Ok.unwrapOr r d s = (Normal v, s)
     ∧ Ok.isOk r s = (Normal (VBool true), s)
     ∧ Ok.isError r s = (Normal (VBool false), s)
     ∧ Result.unwrap r s = (Normal v, s)
     ∧ Result.unwrapOr r d s = (Normal v, s)
     ∧ Result.isOk r s = (Normal (VBool true), s)
     ∧ Result.isError r s = (Normal (VBool false), s))
  ∧ (∀ s, let s' := State (heap s ++ [OOk v]) (calls s) in
       (x ← Ok.new v; Result.unwrap x) s = (Normal v, s')
       ∧ (x ← Ok.new v; Result.unwrapOr x d) s = (Normal v, s')
       ∧ (x ← Ok.new v; Result.isOk x) s = (Normal (VBool true), s')
       ∧ (x ← Ok.new v; Result.isError x) s = (Normal (VBool false), s')).
Proof.
  assert (∀ s r, is_Ok s r v →
     Ok.unwrap r s = (Normal v, s)
     ∧ Ok.unwrapOr r d s = (Normal v, s)
     ∧ Ok.isOk r s = (Normal (VBool true), s)
     ∧ Ok.isError r s = (Normal (VBool false), s)
     ∧ Result.unwrap r s = (Normal v, s)
     ∧ Result.unwrapOr r d s = (Normal v, s)
     ∧ Result.isOk r s = (Normal (VBool true), s)
     ∧ Result.isError r s = (Normal (VBool false), s)) as Hinst.
  { intros s r H.
    assert (Ok.unwrap r s = (Normal v, s)) as Hu by by apply get_value_Ok.
    assert (Ok.unwrapOr r d s = (Normal v, s)) as Ho by by apply get_value_Ok.
    unfold Result.unwrap, Result.unwrapOr, Result.isOk, Result.isError.
    rewrite !(dispatch_Ok _ _ _ _ _ _ H).
    by rewrite Hu, Ho. }
  split; [exact Hinst |]. intros s s'. subst s'.
  destruct (Hinst _ _ (is_Ok_alloc (heap s) (calls s) v))
    as (_ & _ & _ & _ & Hu & Ho & Hi & He).
  rewrite !Ok_new_bind. by rewrite Hu, Ho, Hi, He.
Qed.

Lemma Ok_unwrap_unwrapOr_isOk_isError_witness :
  let s := State [OOk (VNum 42)] 0 in
  is_Ok s (VObj 0) (VNum 42)
  ∧ Ok.unwrap (VObj 0) s = (Normal (VNum 42), s)
  ∧ Ok.unwrapOr (VObj 0) (VNum 0) s = (Normal (VNum 42), s).
Proof.
  intros s.
  assert (is_Ok s (VObj 0) (VNum 42)) as H by (exists 0; split; reflexivity).
  split; [exact H |].
  pose proof (proj1 (Ok_unwrap_unwrapOr_isOk_isError (VNum 42) (VNum 0)) s (VObj 0) H)
    as (Hu & Ho & _).
  split; [exact Hu | exact Ho].
Defined.

(** C8.  On an [Err] instance wrapping [e], in whatever state:
    [unwrapError()] returns [e] and does not throw, [unwrapOr(d)] returns [d]
    for every default [d], [isError()] is [true] and [isOk()] is [false];
    none of them changes the state, and the same holds through the [Result]
    interface.  In particular this is so on the instance [new Err(e)] has
    just made. *)
Theorem Err_unwrapError_unwrapOr_isError_isOk e d :
  (∀ s r, is_Err s r e →
     Err.unwrapError r s = (Normal e, s)
     ∧ Err.unwrapOr r d s = (Normal d, s)
     ∧ Err.isError r s = (Normal (VBool true), s)
     ∧ Err.isOk r s = (Normal (VBool false), s)
     ∧ Result.unwrapError r s = (Normal e, s)
     ∧ Result.unwrapOr r d s = (Normal d, s)
     ∧ Result.isError r s = (Normal (VBool true), s)
     ∧ Result.isOk r s = (Normal (VBool false), s))
  ∧ (∀ s, let s' := State (heap s ++ [OErr e]) (calls s) in
       (x ← Err.new e; Result.unwrapError x) s = (Normal e, s')
       ∧ (x ← Err.new e; Result.unwrapOr x d) s = (Normal d, s')
       ∧ (x ← Err.new e; Result.isError x) s = (Normal (VBool true), s')
       ∧ (x ← Err.new e; Result.isOk x) s = (Normal (VBool false), s')).
Proof.
  assert (∀ s r, is_Err s r e →
     Err.unwrapError r s = (Normal e, s)
     ∧ Err.unwrapOr r d s = (Normal d, s)
     ∧ Err.isError r s = (Normal (VBool true), s)
     ∧ Err.isOk r s = (Normal (VBool false), s)
     ∧ Result.unwrapError r s = (Normal e, s)
     ∧ Result.unwrapOr r d s = (Normal d, s)
     ∧ Result.isError r s = (Normal (VBool true), s)
     ∧ Result.isOk r s = (Normal (VBool false), s)) as Hinst.
  { intros s r H.
    assert (Err.unwrapError r s = (Normal e, s)) as Hu by by apply get_error_Err.
    unfold Result.unwrapError, Result.unwrapOr, Result.isOk, Result.isError.
    rewrite !(dispatch_Err _ _ _ _ _ _ H).
    by rewrite Hu. }
  split; [exact Hinst |]. intros s s'. subst s'.
  destruct (Hinst _ _ (is_Err_alloc (heap s) (calls s) e))
    as (_ & _ & _ & _ & Hu & Ho & Hi & He).
  rewrite !Err_new_bind. by rewrite Hu, Ho, Hi, He.
Qed.

Lemma Err_unwrapError_unwrapOr_isError_isOk_witness :
  let s := State [OErr (VStr "Something went wrong")] 0 in
  is_Err s (VObj 0) (VStr "Something went wrong")
  ∧ Err.unwrapError (VObj 0) s = (Normal (VStr "Something went wrong"), s)
  ∧ Err.unwrapOr (VObj 0) (VNum 42) s = (Normal (VNum 42), s).
Proof.
  intros s.
  assert (is_Err s (VObj 0) (VStr "Something went wrong")) as H
    by (exists 0; split; reflexivity).
  split; [exact H |].
  pose proof (proj1 (Err_unwrapError_unwrapOr_isError_isOk _ (VNum 42)) s (VObj 0) H)
    as (Hu & Ho & _).
  split; [exact Hu | exact Ho].
Defined.

(** ** Chaining *)

(** C6.  [and] on an [Ok] instance returns the passed [res], the very same
    reference, for every [res]; [and] on an [Err] instance wrapping [e]
    returns the receiver itself, which still wraps [e], whatever [res] is.
    Neither changes the state.  In particular [new Ok(v).and(res)] is [res]
    and [new Err(e).and(res)] is the instance [new Err(e)] made. *)
Theorem and_forwards_or_short_circuits res :
  (∀ s r v, is_Ok s r v →
        Ok.and r res s = (Normal res, s) ∧ Result.and r res s = (Normal res, s))
  ∧ (∀ s r e, is_Err s r e →
        Err.and r res s = (Normal r, s) ∧ Result.and r res s = (Normal r, s))
  ∧ (∀ s v, (x ← Ok.new v; Result.and x res) s
            = (Normal res, State (heap s ++ [OOk v]) (calls s)))
  ∧ (∀ s e, (x ← Err.new e; Result.and x res) s = Err.new e s
            ∧ ∃ r s', Err.new e s = (Normal r, s') ∧ is_Err s' r e).
Proof.
  assert (∀ s r v, is_Ok s r v → Result.and r res s = (Normal res, s)) as Hok.
  { intros s r v H. unfold Result.and. by rewrite (dispatch_Ok _ _ _ _ _ _ H). }
  assert (∀ s r e, is_Err s r e → Result.and r res s = (Normal r, s)) as Herr.
  { intros s r e H. unfold Result.and. by rewrite (dispatch_Err _ _ _ _ _ _ H). }
  split; [| split; [| split]].
  - intros s r v H. split; [done | by apply Hok with v].
  - intros s r e H. split; [done | by apply Herr with e].
  - intros s v. rewrite Ok_new_bind. apply Hok with v, is_Ok_alloc.
  - intros s e. split.
    + rewrite Err_new_bind. apply Herr with e, is_Err_alloc.
    + eexists _, _. split; [reflexivity | apply is_Err_alloc].
Qed.

Lemma and_forwards_or_short_circuits_witness :
  let s := State [OOk (VNum 42); OErr (VStr "Something went wrong")] 0 in
  (is_Ok s (VObj 0) (VNum 42) ∧ Result.and (VObj 0) (VObj 1) s = (Normal (VObj 1), s))
  ∧ (is_Err s (VObj 1) (VStr "Something went wrong")
     ∧ Result.and (VObj 1) (VObj 0) s = (Normal (VObj 1), s)).
Proof.
  intros s. split.
  - assert (is_Ok s (VObj 0) (VNum 42)) as H by (exists 0; split; reflexivity).
    split; [exact H |].
    exact (proj2 (proj1 (and_forwards_or_short_circuits (VObj 1)) s _ _ H)).
  - assert (is_Err s (VObj 1) (VStr "Something went wrong")) as H
      by (exists 1; split; reflexivity).
    split; [exact H |].
    exact (proj2 (proj1 (proj2 (and_forwards_or_short_circuits (VObj 0))) s _ _ H)).
Defined.

(** C1.  [andThen(f)] on an [Ok] instance wrapping [v] is [f(v)]: the same
    outcome (the [Result] [f] returns, or what [f] throws) and the same final
    state.  [andThen(f)] on an [Err] instance wrapping [e] returns the
    receiver itself, which still wraps [e], and leaves the state as it was
    for every [f]; in particular the call counter of an instrumented [f] does
    not move.  So [new Ok(v).andThen(f)] is [f(v)] run after the
    construction, and [new Err(e).andThen(f)] is the instance [new Err(e)]
    made. *)
Theorem andThen_applies_or_short_circuits (f : val → JS val) :
  (∀ s r v, is_Ok s r v →
        Ok.andThen r f s = f v s ∧ Result.andThen r f s = f v s)
  ∧ (∀ s r e, is_Err s r e →
        Err.andThen r f s = (Normal r, s)
        ∧ Result.andThen r f s = (Normal r, s)
        ∧ calls (Result.andThen r (counted f) s).2 = calls s)
  ∧ (∀ s v, (x ← Ok.new v; Result.andThen x f) s = (Ok.new v;; f v) s)
  ∧ (∀ s e, (x ← Err.new e; Result.andThen x f) s = Err.new e s
            ∧ (x ← Err.new e; Result.andThen x (counted f)) s = Err.new e s
            ∧ ∃ r s', Err.new e s = (Normal r, s') ∧ is_Err s' r e).
Proof.
  assert (∀ s r v, is_Ok s r v → Result.andThen r f s = f v s) as Hok.
  { intros s r v H. unfold Result.andThen. rewrite (dispatch_Ok _ _ _ _ _ _ H).
    unfold Ok.andThen. by rewrite (bind_normal _ _ _ _ _ (get_value_Ok _ _ _ H)). }
  assert (∀ g s r e, is_Err s r e → Result.andThen r g s = (Normal r, s)) as Herr.
  { intros g s r e H. unfold Result.andThen. by rewrite (dispatch_Err _ _ _ _ _ _ H). }
  split; [| split; [| split]].
  - intros s r v H. split; [| by apply Hok].
    unfold Ok.andThen. by rewrite (bind_normal _ _ _ _ _ (get_value_Ok _ _ _ H)).
  - intros s r e H. split; [done |]. split; [by apply Herr with e |].
    by rewrite (Herr _ _ _ _ H).
  - intros s v. rewrite !Ok_new_bind. apply Hok, is_Ok_alloc.
  - intros s e. rewrite !Err_new_bind. split; [| split].
    + apply Herr with e, is_Err_alloc.
    + apply Herr with e, is_Err_alloc.
    + eexists _, _. split; [reflexivity | apply is_Err_alloc].
Qed.

Lemma andThen_applies_or_short_circuits_witness :
  let s := State [OOk (VNum 42); OErr (VStr "Something went wrong")] 0 in
  let f := counted (λ value, Ok.new value) in
  (is_Ok s (VObj 0) (VNum 42)
   ∧ Result.andThen (VObj 0) f s = f (VNum 42) s)
  ∧ (is_Err s (VObj 1) (VStr "Something went wrong")
     ∧ Result.andThen (VObj 1) f s = (Normal (VObj 1), s)).
Proof.
  intros s f. split.
  - assert (is_Ok s (VObj 0) (VNum 42)) as H by (exists 0; split; reflexivity).
    split; [exact H |].
    exact (proj2 (proj1 (andThen_applies_or_short_circuits f) s _ _ H)).
  - assert (is_Err s (VObj 1) (VStr "Something went wrong")) as H
      by (exists 1; split; reflexivity).
    split; [exact H |].
    exact (proj1 (proj2 (proj1 (proj2 (andThen_applies_or_short_circuits f)) s _ _ H))).
Defined.

(** ** Transformation *)

Lemma Ok_map_run s r v (f : val → JS val) w s1 :
  is_Ok s r v → f v s = (Normal w, s1) →
  Ok.map r f s = (Normal (VObj (length (heap s1))), State (heap s1 ++ [OOk w]) (calls s1)).
Proof.
  intros H Hf. unfold Ok.map.
  rewrite (bind_normal _ _ _ _ _ (get_value_Ok _ _ _ H)).
  by rewrite (bind_normal _ _ _ _ _ Hf).
Qed.

Lemma Ok_map_throws s r v (f : val → JS val) x s1 :
  is_Ok s r v → f v s = (Thrown x, s1) → Ok.map r f s = (Thrown x, s1).
Proof.
  intros H Hf. unfold Ok.map.
  rewrite (bind_normal _ _ _ _ _ (get_value_Ok _ _ _ H)).
  by rewrite (bind_thrown _ _ _ _ _ Hf).
Qed.

Lemma Err_mapError_run s r e (f : val → JS val) w s1 :
  is_Err s r e → f e s = (Normal w, s1) →
  Err.mapError r f s
  = (Normal (VObj (length (heap s1))), State (heap s1 ++ [OErr w]) (calls s1)).
Proof.
  intros H Hf. unfold Err.mapError.
  rewrite (bind_normal _ _ _ _ _ (get_error_Err _ _ _ H)).
  by rewrite (bind_normal _ _ _ _ _ Hf).
Qed.

Lemma Err_mapError_throws s r e (f : val → JS val) x s1 :
  is_Err s r e → f e s = (Thrown x, s1) → Err.mapError r f s = (Thrown x, s1).
Proof.
  intros H Hf. unfold Err.mapError.
  rewrite (bind_normal _ _ _ _ _ (get_error_Err _ _ _ H)).
  by rewrite (bind_thrown _ _ _ _ _ Hf).
Qed.

(** C4.  [map(f)] on an [Ok] instance wrapping [v], when [f(v)] returns [w]:
    the result is an [Ok] instance that did not exist before and wraps [w],
    nothing else changes after [f] has run, and [map(f).unwrap()] is [w]; for
    an [f] that is a plain function [g], [map(f).unwrap()] is [g v] and the
    result is another object than the receiver, which still wraps [v]; so
    [new Ok(v).map(g).unwrap()] is [g v].  [map(f)] on an [Err] instance
    returns the receiver itself and leaves the state as it was for every [f]:
    the call counter of an instrumented [f] does not move. *)
Theorem map_transforms_or_short_circuits (f : val → JS val) :
  (∀ s r v w s1, is_Ok s r v → f v s = (Normal w, s1) →
     ∃ r' s2, Ok.map r f s = (Normal r', s2)
       ∧ Result.map r f s = (Normal r', s2)
       ∧ fresh s1 r' ∧ is_Ok s2 r' w
       ∧ results_frozen s1 s2 ∧ calls s2 = calls s1
       ∧ (x ← Result.map r f; Result.unwrap x) s = (Normal w, s2))
  ∧ (∀ s r v g, is_Ok s r v →
     ∃ r' s2, Result.map r (pure_fn g) s = (Normal r', s2)
       ∧ r' ≠ r ∧ is_Ok s2 r' (g v) ∧ is_Ok s2 r v
       ∧ (x ← Result.map r (pure_fn g); Result.unwrap x) s = (Normal (g v), s2))
  ∧ (∀ s v g,
       (x ← Ok.new v; y ← Result.map x (pure_fn g); Result.unwrap y) s
       = (Normal (g v), State (heap s ++ [OOk v; OOk (g v)]) (calls s)))
  ∧ (∀ s r e, is_Err s r e →
       Err.map r f s = (Normal r, s)
       ∧ Result.map r f s = (Normal r, s)
       ∧ is_Err s r e
       ∧ calls (Result.map r (counted f) s).2 = calls s)
  ∧ (∀ s e, (x ← Err.new e; Result.map x f) s = Err.new e s
            ∧ (x ← Err.new e; Result.map x (counted f)) s = Err.new e s).
Proof.
  assert (∀ (f : val → JS val) s r v w s1, is_Ok s r v → f v s = (Normal w, s1) →
    let r' := VObj (length (heap s1)) in
    let s2 := State (heap s1 ++ [OOk w]) (calls s1) in
    Ok.map r f s = (Normal r', s2) ∧ Result.map r f s = (Normal r', s2)
    ∧ fresh s1 r' ∧ is_Ok s2 r' w ∧ results_frozen s1 s2 ∧ calls s2 = calls s1
    ∧ (x ← Result.map r f; Result.unwrap x) s = (Normal w, s2)) as Hmap.
  { intros f0 s r v w s1 H Hf r' s2.
    assert (Result.map r f0 s = (Normal r', s2)) as Hm.
    { unfold Result.map. rewrite (dispatch_Ok _ _ _ _ _ _ H). by apply Ok_map_run with v. }
    assert (is_Ok s2 r' w) as Hr' by apply is_Ok_alloc.
    split; [by apply Ok_map_run with v |]. split; [done |].
    split; [apply fresh_next |]. split; [done |].
    split; [apply (results_frozen_alloc (OOk w) s1) |]. split; [done |].
    rewrite (bind_normal _ _ _ _ _ Hm).
    by apply Result_unwrap_Ok. }
  assert (∀ g s r e, is_Err s r e → Result.map r g s = (Normal r, s)) as Herr.
  { intros g s r e H. unfold Result.map. by rewrite (dispatch_Err _ _ _ _ _ _ H). }
  split; [| split; [| split; [| split]]].
  - intros s r v w s1 H Hf. eexists _, _. by apply Hmap with v.
  - intros s r v g H.
    destruct (Hmap (pure_fn g) s r v (g v) s H eq_refl)
      as (_ & Hm & Hfr & Hok & Hfz & _ & Hu).
    eexists _, _. split; [exact Hm |]. split.
    + intros <-. by apply (fresh_not_Ok _ _ _ Hfr) in H.
    + split; [done |]. split; [by apply (is_Ok_frozen s) |]. done.
  - intros s v g. rewrite Ok_new_bind.
    destruct (Hmap (pure_fn g) _ _ v (g v) _ (is_Ok_alloc (heap s) (calls s) v) eq_refl)
      as (_ & _ & _ & _ & _ & _ & Hu).
    simpl in Hu. by rewrite <- app_assoc in Hu.
  - intros s r e H. split; [done |]. split; [by apply Herr with e |].
    split; [done |]. by rewrite (Herr _ _ _ _ H).
  - intros s e. rewrite !Err_new_bind. split; apply Herr with e, is_Err_alloc.
Qed.

Lemma map_transforms_or_short_circuits_witness :
  let s := State [OOk (VNum 42); OErr (VStr "Something went wrong")] 0 in
  let f := counted (pure_fn (λ _, VStr "42")) in
  (is_Ok s (VObj 0) (VNum 42)
   ∧ f (VNum 42) s = (Normal (VStr "42"), State (heap s) 1)
   ∧ (x ← Result.map (VObj 0) f; Result.unwrap x) s
     = (Normal (VStr "42"), State (heap s ++ [OOk (VStr "42")]) 1))
  ∧ (is_Err s (VObj 1) (VStr "Something went wrong")
     ∧ Result.map (VObj 1) f s = (Normal (VObj 1), s)).
Proof.
  intros s f. split.
  - assert (is_Ok s (VObj 0) (VNum 42)) as H by (exists 0; split; reflexivity).
    assert (f (VNum 42) s = (Normal (VStr "42"), State (heap s) 1)) as Hf
      by reflexivity.
    split; [exact H |]. split; [exact Hf |].
    destruct (proj1 (map_transforms_or_short_circuits f) s _ _ _ _ H Hf)
      as (r' & s2 & Hm & _ & _ & _ & _ & _ & Hu).
    vm_compute in Hm. injection Hm as <- <-. exact Hu.
  - assert (is_Err s (VObj 1) (VStr "Something went wrong")) as H
      by (exists 1; split; reflexivity).
    split; [exact H |].
    exact (proj1 (proj2 (proj1 (proj2 (proj2 (proj2
             (map_transforms_or_short_circuits f)))) s _ _ H))).
Defined.

(** C5.  [mapError(f)] on an [Err] instance wrapping [e], when [f(e)] returns
    [w]: the result is an [Err] instance that did not exist before and wraps
    [w], nothing else changes after [f] has run, and
    [mapError(f).unwrapError()] is [w]; for an [f] that is a plain function
    [g], [mapError(f).unwrapError()] is [g e] and the result is another object
    than the receiver, which still wraps [e]; so
    [new Err(e).mapError(g).unwrapError()] is [g e].  [mapError(f)] on an [Ok]
    instance wrapping [v] returns the receiver itself, which still wraps [v],
    and leaves the state as it was for every [f]: the call counter of an
    instrumented [f] does not move. *)
Theorem mapError_transforms_or_passes_through (f : val → JS val) :
  (∀ s r e w s1, is_Err s r e → f e s = (Normal w, s1) →
     ∃ r' s2, Err.mapError r f s = (Normal r', s2)
       ∧ Result.mapError r f s = (Normal r', s2)
       ∧ fresh s1 r' ∧ is_Err s2 r' w
       ∧ results_frozen s1 s2 ∧ calls s2 = calls s1
       ∧ (x ← Result.mapError r f; Result.unwrapError x) s = (Normal w, s2))
  ∧ (∀ s r e g, is_Err s r e →
     ∃ r' s2, Result.mapError r (pure_fn g) s = (Normal r', s2)
       ∧ r' ≠ r ∧ is_Err s2 r' (g e) ∧ is_Err s2 r e
       ∧ (x ← Result.mapError r (pure_fn g); Result.unwrapError x) s
         = (Normal (g e), s2))
  ∧ (∀ s e g,
       (x ← Err.new e; y ← Result.mapError x (pure_fn g); Result.unwrapError y) s
       = (Normal (g e), State (heap s ++ [OErr e; OErr (g e)]) (calls s)))
  ∧ (∀ s r v, is_Ok s r v →
       Ok.mapError r f s = (Normal r, s)
       ∧ Result.mapError r f s = (Normal r, s)
       ∧ is_Ok s r v
       ∧ calls (Result.mapError r (counted f) s).2 = calls s)
  ∧ (∀ s v, (x ← Ok.new v; Result.mapError x f) s = Ok.new v s
            ∧ (x ← Ok.new v; Result.mapError x (counted f)) s = Ok.new v s
            ∧ (x ← Ok.new v; y ← Result.mapError x f; Result.unwrap y) s
              = (Normal v, State (heap s ++ [OOk v]) (calls s))).
Proof.
  assert (∀ (f : val → JS val) s r e w s1, is_Err s r e → f e s = (Normal w, s1) →
    let r' := VObj (length (heap s1)) in
    let s2 := State (heap s1 ++ [OErr w]) (calls s1) in
    Err.mapError r f s = (Normal r', s2) ∧ Result.mapError r f s = (Normal r', s2)
    ∧ fresh s1 r' ∧ is_Err s2 r' w ∧ results_frozen s1 s2 ∧ calls s2 = calls s1
    ∧ (x ← Result.mapError r f; Result.unwrapError x) s = (Normal w, s2)) as Hmap.
  { intros f0 s r e w s1 H Hf r' s2.
    assert (Result.mapError r f0 s = (Normal r', s2)) as Hm.
    { unfold Result.mapError. rewrite (dispatch_Err _ _ _ _ _ _ H).
      by apply Err_mapError_run with e. }
    assert (is_Err s2 r' w) as Hr' by apply is_Err_alloc.
    split; [by apply Err_mapError_run with e |]. split; [done |].
    split; [apply fresh_next |]. split; [done |].
    split; [apply (results_frozen_alloc (OErr w) s1) |]. split; [done |].
    rewrite (bind_normal _ _ _ _ _ Hm).
    by apply Result_unwrapError_Err. }
  assert (∀ g s r v, is_Ok s r v → Result.mapError r g s = (Normal r, s)) as Hok.
  { intros g s r v H. unfold Result.mapError. by rewrite (dispatch_Ok _ _ _ _ _ _ H). }
  split; [| split; [| split; [| split]]].
  - intros s r e w s1 H Hf. eexists _, _. by apply Hmap with e.
  - intros s r e g H.
    destruct (Hmap (pure_fn g) s r e (g e) s H eq_refl)
      as (_ & Hm & Hfr & Hok' & Hfz & _ & Hu).
    eexists _, _. split; [exact Hm |]. split.
    + intros <-. by apply (fresh_not_Err _ _ _ Hfr) in H.
    + split; [done |]. split; [by apply (is_Err_frozen s) |]. done.
  - intros s e g. rewrite Err_new_bind.
    destruct (Hmap (pure_fn g) _ _ e (g e) _ (is_Err_alloc (heap s) (calls s) e) eq_refl)
      as (_ & _ & _ & _ & _ & _ & Hu).
    simpl in Hu. by rewrite <- app_assoc in Hu.
  - intros s r v H. split; [done |]. split; [by apply Hok with v |].
    split; [done |]. by rewrite (Hok _ _ _ _ H).
  - intros s v. rewrite !Ok_new_bind.
    pose proof (is_Ok_alloc (heap s) (calls s) v) as H.
    split; [by apply Hok with v |]. split; [by apply Hok with v |].
    rewrite (bind_normal _ _ _ _ _ (Hok f _ _ _ H)). by apply Result_unwrap_Ok.
Qed.

Lemma mapError_transforms_or_passes_through_witness :
  let s := State [OOk (VNum 42); OErr (VStr "Something went wrong")] 0 in
  let f := counted (pure_fn (λ _, VStr "New error")) in
  (is_Err s (VObj 1) (VStr "Something went wrong")
   ∧ f (VStr "Something went wrong") s = (Normal (VStr "New error"), State (heap s) 1)
   ∧ (x ← Result.mapError (VObj 1) f; Result.unwrapError x) s
     = (Normal (VStr "New error"), State (heap s ++ [OErr (VStr "New error")]) 1))
  ∧ (is_Ok s (VObj 0) (VNum 42)
     ∧ Result.mapError (VObj 0) f s = (Normal (VObj 0), s)).
Proof.
  intros s f. split.
  - assert (is_Err s (VObj 1) (VStr "Something went wrong")) as H
      by (exists 1; split; reflexivity).
    assert (f (VStr "Something went wrong") s
            = (Normal (VStr "New error"), State (heap s) 1)) as Hf by reflexivity.
    split; [exact H |]. split; [exact Hf |].
    destruct (proj1 (mapError_transforms_or_passes_through f) s _ _ _ _ H Hf)
      as (r' & s2 & Hm & _ & _ & _ & _ & _ & Hu).
    vm_compute in Hm. injection Hm as <- <-. exact Hu.
  - assert (is_Ok s (VObj 0) (VNum 42)) as H by (exists 0; split; reflexivity).
    split; [exact H |].
    exact (proj1 (proj2 (proj1 (proj2 (proj2 (proj2
             (mapError_transforms_or_passes_through f)))) s _ _ H))).
Defined.

(** ** The adapters *)

Lemma run_returns (fn : JS val) s v s1 :
  fn s = (Normal v, s1) →
  Result.run fn s
  = (Normal (VObj (length (heap s1))), State (heap s1 ++ [OOk v]) (calls s1)).
Proof.
  intros H. unfold Result.run, try_catch.
  by rewrite (bind_normal _ _ _ _ _ H).
Qed.

Lemma run_throws (fn : JS val) s e s1 :
  fn s = (Thrown e, s1) →
  Result.run fn s
  = (Normal (VObj (length (heap s1))), State (heap s1 ++ [OErr e]) (calls s1)).
Proof.
  intros H. unfold Result.run, try_catch.
  by rewrite (bind_thrown _ _ _ _ _ H).
Qed.

Lemma run_total (fn : JS val) s : returns (Result.run fn) s.
Proof.
  destruct (fn s) as [[v | e] s1] eqn:H.
  - eexists _, _. by apply run_returns.
  - eexists _, _. by apply run_throws.
Qed.

Lemma run_calls (fn : JS val) s : calls (Result.run fn s).2 = calls (fn s).2.
Proof.
  destruct (fn s) as [[v | e] s1] eqn:H.
  - by rewrite (run_returns _ _ _ _ H).
  - by rewrite (run_throws _ _ _ _ H).
Qed.

Lemma runAsync_fulfilled (fn : JS promise) s v s1 :
  fn s = (Normal (Fulfilled v), s1) →
  Result.runAsync fn s
  = (Normal (Fulfilled (VObj (length (heap s1)))),
     State (heap s1 ++ [OOk v]) (calls s1)).
Proof.
  intros H. unfold Result.runAsync, async_function.
  by rewrite (bind_normal _ _ _ _ _ H).
Qed.

Lemma runAsync_rejected (fn : JS promise) s e s1 :
  fn s = (Normal (Rejected e), s1) →
  Result.runAsync fn s
  = (Normal (Fulfilled (VObj (length (heap s1)))),
     State (heap s1 ++ [OErr e]) (calls s1)).
Proof.
  intros H. unfold Result.runAsync, async_function.
  by rewrite (bind_normal _ _ _ _ _ H).
Qed.

Lemma runAsync_pending (fn : JS promise) s s1 :
  fn s = (Normal Pending, s1) → Result.runAsync fn s = (Normal Pending, s1).
Proof.
  intros H. unfold Result.runAsync, async_function.
  by rewrite (bind_normal _ _ _ _ _ H).
Qed.

(** When [fn] is not an [async] function and throws before it has returned a
    promise, there is no promise to attach the [catch] to: the promise of
    [runAsync] is rejected with what was thrown. *)
Lemma runAsync_synchronous_throw (fn : JS promise) s e s1 :
  fn s = (Thrown e, s1) → Result.runAsync fn s = (Normal (Rejected e), s1).
Proof.
  intros H. unfold Result.runAsync, async_function.
  by rewrite (bind_thrown _ _ _ _ _ H).
Qed.

Lemma runAsync_total (fn : JS promise) s : returns (Result.runAsync fn) s.
Proof.
  destruct (fn s) as [[[| v | e] | e] s1] eqn:H; eexists _, _.
  - by apply runAsync_pending.
  - by apply runAsync_fulfilled.
  - by apply runAsync_rejected.
  - by apply runAsync_synchronous_throw.
Qed.

(** C3.  [run(fn)] runs [fn] once, from the state [run] was called in: when
    [fn] returns [v] and leaves the state [s1], [run(fn)] returns a new [Ok]
    instance wrapping [v] and the state is [s1] with that one object added;
    when [fn] throws [e], [run(fn)] returns (it does not throw) a new [Err]
    instance wrapping [e], the state being [s1] with that one object added.
    So [run(fn)] never throws, and an [fn] instrumented with a call counter
    that it does not touch itself is counted exactly once.  The promise of
    [runAsync(fn)] is fulfilled with a new [Ok] instance wrapping [v] when
    the promise [fn] returns is fulfilled with [v], and fulfilled with a new
    [Err] instance wrapping [e] when that promise is rejected with [e]. *)
Theorem run_and_runAsync_capture_the_outcome (fn : JS val) (afn : JS promise) s :
  (∀ v s1, fn s = (Normal v, s1) →
     ∃ r s2, Result.run fn s = (Normal r, s2)
       ∧ fresh s1 r ∧ is_Ok s2 r v
       ∧ heap s2 = heap s1 ++ [OOk v] ∧ calls s2 = calls s1)
  ∧ (∀ e s1, fn s = (Thrown e, s1) →
     ∃ r s2, Result.run fn s = (Normal r, s2)
       ∧ fresh s1 r ∧ is_Err s2 r e
       ∧ heap s2 = heap s1 ++ [OErr e] ∧ calls s2 = calls s1)
  ∧ returns (Result.run fn) s
  ∧ ((∀ s0, calls (fn s0).2 = calls s0) →
     calls (Result.run (counted0 fn) s).2 = S (calls s))
  ∧ (∀ v s1, afn s = (Normal (Fulfilled v), s1) →
     ∃ r s2, Result.runAsync afn s = (Normal (Fulfilled r), s2)
       ∧ fresh s1 r ∧ is_Ok s2 r v
       ∧ heap s2 = heap s1 ++ [OOk v] ∧ calls s2 = calls s1)
  ∧ (∀ e s1, afn s = (Normal (Rejected e), s1) →
     ∃ r s2, Result.runAsync afn s = (Normal (Fulfilled r), s2)
       ∧ fresh s1 r ∧ is_Err s2 r e
       ∧ heap s2 = heap s1 ++ [OErr e] ∧ calls s2 = calls s1).
Proof.
  repeat apply conj.
  - intros v s1 H. eexists _, _. split; [by apply run_returns |].
    split; [apply fresh_next |]. split; [apply is_Ok_alloc | done].
  - intros e s1 H. eexists _, _. split; [by apply run_throws |].
    split; [apply fresh_next |]. split; [apply is_Err_alloc | done].
  - apply run_total.
  - intros H. rewrite run_calls. unfold counted0.
    rewrite (bind_normal tick _ s () (tick s).2 eq_refl). by rewrite H.
  - intros v s1 H. eexists _, _. split; [by apply runAsync_fulfilled |].
    split; [apply fresh_next |]. split; [apply is_Ok_alloc | done].
  - intros e s1 H. eexists _, _. split; [by apply runAsync_rejected |].
    split; [apply fresh_next |]. split; [apply is_Err_alloc | done].
Qed.

Lemma run_and_runAsync_capture_the_outcome_witness :
  let succeed : JS val := mret (VStr "Success") in
  let fail : JS val := e ← new_Error "Failure"; throw e in
  let s1 := State [OError "Error" "Failure"] 0 in
  (succeed initial = (Normal (VStr "Success"), initial)
   ∧ ∃ r s2, Result.run succeed initial = (Normal r, s2)
       ∧ fresh initial r ∧ is_Ok s2 r (VStr "Success")
       ∧ heap s2 = heap initial ++ [OOk (VStr "Success")] ∧ calls s2 = calls initial)
  ∧ (fail initial = (Thrown (VObj 0), s1)
     ∧ ∃ r s2, Result.run fail initial = (Normal r, s2)
         ∧ fresh s1 r ∧ is_Err s2 r (VObj 0)
         ∧ heap s2 = heap s1 ++ [OErr (VObj 0)] ∧ calls s2 = calls s1)
  ∧ ((∀ s0, calls (succeed s0).2 = calls s0)
     ∧ calls (Result.run (counted0 succeed) initial).2 = 1)
  ∧ (settle succeed initial = (Normal (Fulfilled (VStr "Success")), initial)
     ∧ ∃ r s2, Result.runAsync (settle succeed) initial = (Normal (Fulfilled r), s2)
         ∧ fresh initial r ∧ is_Ok s2 r (VStr "Success")
         ∧ heap s2 = heap initial ++ [OOk (VStr "Success")] ∧ calls s2 = calls initial)
  ∧ (settle fail initial = (Normal (Rejected (VObj 0)), s1)
     ∧ ∃ r s2, Result.runAsync (settle fail) initial = (Normal (Fulfilled r), s2)
         ∧ fresh s1 r ∧ is_Err s2 r (VObj 0)
         ∧ heap s2 = heap s1 ++ [OErr (VObj 0)] ∧ calls s2 = calls s1).
Proof.
  intros succeed fail s1.
  pose proof (run_and_runAsync_capture_the_outcome succeed (settle succeed) initial)
    as (Hret & _ & _ & Hcount & Hful & _).
  pose proof (run_and_runAsync_capture_the_outcome fail (settle fail) initial)
    as (_ & Hthr & _ & _ & _ & Hrej).
  split; [split; [reflexivity | apply Hret; reflexivity] |].
  split; [split; [reflexivity | apply Hthr; reflexivity] |].
  split; [split; [reflexivity | apply Hcount; reflexivity] |].
  split; [split; [reflexivity | apply Hful; reflexivity] |].
  split; [reflexivity | apply Hrej; reflexivity].
Defined.

(** C10.  Whatever value [fn] throws, an error object or not, [run(fn)]
    returns an [Err] instance whose field is that very value: the only object
    [run] adds to the state [fn] left is that [Err] instance, no error object
    is created around the value, and [unwrapError()] on the result gives the
    value back.  In particular a thrown string comes back as that string and
    a thrown number as that number. *)
Theorem run_wraps_the_thrown_value_as_it_is (fn : JS val) s e s1 :
  fn s = (Thrown e, s1) →
  Result.run fn s
  = (Normal (VObj (length (heap s1))), State (heap s1 ++ [OErr e]) (calls s1))
  ∧ (x ← Result.run fn; Result.unwrapError x) s
    = (Normal e, State (heap s1 ++ [OErr e]) (calls s1))
  ∧ (∀ str, (x ← Result.run (throw (VStr str)); Result.unwrapError x) s
            = (Normal (VStr str), State (heap s ++ [OErr (VStr str)]) (calls s)))
  ∧ (∀ n, (x ← Result.run (throw (VNum n)); Result.unwrapError x) s
          = (Normal (VNum n), State (heap s ++ [OErr (VNum n)]) (calls s))).
Proof.
  intros H.
  assert (∀ (c : JS val) x s', c s = (Thrown x, s') →
            (y ← Result.run c; Result.unwrapError y) s
            = (Normal x, State (heap s' ++ [OErr x]) (calls s'))) as Hgen.
  { intros c x s' Hc. rewrite (bind_normal _ _ _ _ _ (run_throws _ _ _ _ Hc)).
    apply Result_unwrapError_Err, is_Err_alloc. }
  split; [by apply run_throws |]. split; [by apply Hgen |].
  split; intros; by apply Hgen.
Qed.

Lemma run_wraps_the_thrown_value_as_it_is_witness :
  let fn : JS val := throw (VStr "boom") in
  fn initial = (Thrown (VStr "boom"), initial)
  ∧ Result.run fn initial = (Normal (VObj 0), State [OErr (VStr "boom")] 0)
  ∧ (x ← Result.run fn; Result.unwrapError x) initial
    = (Normal (VStr "boom"), State [OErr (VStr "boom")] 0).
Proof.
  intros fn.
  assert (fn initial = (Thrown (VStr "boom"), initial)) as H by reflexivity.
  pose proof (run_wraps_the_thrown_value_as_it_is fn initial _ _ H) as (Hr & Hu & _).
  split; [exact H |]. split; [exact Hr | exact Hu].
Defined.

(** ** Immutability *)

Lemma preserves_ret {A} (a : A) : preserves_results (mret a : JS A).
Proof. intros s. apply results_frozen_refl. Qed.

Lemma preserves_throw {A} e : preserves_results (throw e : JS A).
Proof. intros s. apply results_frozen_refl. Qed.

Lemma preserves_alloc o : preserves_results (alloc o).
Proof. intros s. apply results_frozen_alloc. Qed.

Lemma preserves_tick : preserves_results tick.
Proof. intros s. apply results_frozen_tick. Qed.

Lemma preserves_bind {A B} (m : JS A) (k : A → JS B) :
  preserves_results m → (∀ a, preserves_results (k a)) →
  preserves_results (m ≫= k).
Proof.
  intros Hm Hk s. specialize (Hm s). unfold mbind, JS_bind.
  destruct (m s) as [[a | e] s1]; simpl in *; [| done].
  by eapply results_frozen_trans, Hk.
Qed.

Lemma preserves_try_catch {A} (body : JS A) (handler : val → JS A) :
  preserves_results body → (∀ e, preserves_results (handler e)) →
  preserves_results (try_catch body handler).
Proof.
  intros Hb Hh s. specialize (Hb s). unfold try_catch.
  destruct (body s) as [[a | e] s1]; simpl in *; [done |].
  by eapply results_frozen_trans, Hh.
Qed.

Lemma preserves_counted {A B} (f : A → JS B) : encapsulated f → encapsulated (counted f).
Proof. intros Hf a. apply preserves_bind; [apply preserves_tick | done]. Qed.

Lemma preserves_brand_check_failure {A} field :
  preserves_results (brand_check_failure field : JS A).
Proof.
  apply preserves_bind; [apply preserves_alloc | intros; apply preserves_throw].
Qed.

Lemma preserves_not_a_function {A} method :
  preserves_results (not_a_function method : JS A).
Proof.
  apply preserves_bind; [apply preserves_alloc | intros; apply preserves_throw].
Qed.

Lemma preserves_get_value this : preserves_results (Ok.get_value this).
Proof.
  intros s. unfold Ok.get_value.
  destruct this as [| | | | | l]; try apply preserves_brand_check_failure.
  destruct (heap s !! l) as [[v | e | n m] |];
    try apply preserves_brand_check_failure.
  apply results_frozen_refl.
Qed.

Lemma preserves_get_error this : preserves_results (Err.get_error this).
Proof.
  intros s. unfold Err.get_error.
  destruct this as [| | | | | l]; try apply preserves_brand_check_failure.
  destruct (heap s !! l) as [[v | e | n m] |];
    try apply preserves_brand_check_failure.
  apply results_frozen_refl.
Qed.

Lemma preserves_dispatch {A} method r (ok err : JS A) :
  preserves_results ok → preserves_results err →
  preserves_results (Result.dispatch method r ok err).
Proof.
  intros Hok Herr s. unfold Result.dispatch.
  destruct r as [| | | | | l]; try apply preserves_not_a_function.
  destruct (heap s !! l) as [[v | e | n m] |];
    [apply Hok | apply Herr | apply preserves_not_a_function ..].
Qed.

Create HintDb frozen.

#[local] Hint Resolve preserves_ret preserves_throw preserves_alloc preserves_tick
  preserves_brand_check_failure preserves_not_a_function
  preserves_get_value preserves_get_error : frozen.

Ltac frozen :=
  repeat first
    [ apply preserves_dispatch
    | apply preserves_try_catch
    | apply preserves_bind
    | match goal with |- ∀ _ : val, _ => intro end ];
  eauto with frozen.

(** No method of either class, however it is reached, changes an existing
    instance, as long as the callback it is given does not. *)
Lemma preserves_methods r res d (f : val → JS val) :
  encapsulated f →
  preserves_results (Result.and r res)
  ∧ preserves_results (Result.andThen r f)
  ∧ preserves_results (Result.isOk r)
  ∧ preserves_results (Result.isError r)
  ∧ preserves_results (Result.map r f)
  ∧ preserves_results (Result.mapError r f)
  ∧ preserves_results (Result.unwrap r)
  ∧ preserves_results (Result.unwrapError r)
  ∧ preserves_results (Result.unwrapOr r d).
Proof.
  intros Hf.
  unfold Result.and, Result.andThen, Result.isOk, Result.isError, Result.map,
    Result.mapError, Result.unwrap, Result.unwrapError, Result.unwrapOr.
  unfold Ok.and, Ok.andThen, Ok.isOk, Ok.isError, Ok.map, Ok.mapError,
    Ok.unwrap, Ok.unwrapError, Ok.unwrapOr, Ok.new, new_Error.
  unfold Err.and, Err.andThen, Err.isOk, Err.isError, Err.map, Err.mapError,
    Err.unwrap, Err.unwrapError, Err.unwrapOr, Err.new.
  repeat apply conj; frozen; apply Hf.
Qed.

Lemma preserves_run (fn : JS val) :
  preserves_results fn → preserves_results (Result.run fn).
Proof. intros H. unfold Result.run, Ok.new, Err.new. frozen. Qed.

Lemma unchanged_of_preserves {A} (c : JS A) s r :
  is_Result s r → preserves_results c → unchanged_by c s r.
Proof.
  intros (l & o & -> & H & Ho) Hc l' [= <-]. rewrite H. by apply (Hc s).
Qed.

(** C9.  An instance of the interface is an [Ok] instance or an [Err]
    instance and never both.  On every instance [isOk()] and [isError()]
    return opposite booleans without changing the state, and they return
    those same booleans in every later state in which the existing instances
    have been left alone.  None of [and], [andThen], [map], [mapError],
    [unwrap], [unwrapError], [unwrapOr], [isOk], [isError] changes the object
    the receiver refers to, its class or its field, given that the callback
    passed in does not reach into existing instances, which code outside the
    two classes cannot do. *)
Theorem variant_and_payload_are_fixed s r res d (f : val → JS val) :
  is_Result s r → encapsulated f →
  (((∃ v, is_Ok s r v) ∨ (∃ e, is_Err s r e))
   ∧ ¬ ((∃ v, is_Ok s r v) ∧ (∃ e, is_Err s r e)))
  ∧ (∃ b, Result.isOk r s = (Normal (VBool b), s)
        ∧ Result.isError r s = (Normal (VBool (negb b)), s)
        ∧ ∀ s', results_frozen s s' →
            Result.isOk r s' = (Normal (VBool b), s')
            ∧ Result.isError r s' = (Normal (VBool (negb b)), s'))
  ∧ unchanged_by (Result.and r res) s r
  ∧ unchanged_by (Result.andThen r f) s r
  ∧ unchanged_by (Result.map r f) s r
  ∧ unchanged_by (Result.mapError r f) s r
  ∧ unchanged_by (Result.unwrap r) s r
  ∧ unchanged_by (Result.unwrapError r) s r
  ∧ unchanged_by (Result.unwrapOr r d) s r
  ∧ unchanged_by (Result.isOk r) s r
  ∧ unchanged_by (Result.isError r) s r.
Proof.
  intros Hr Hf.
  destruct (preserves_methods r res d f Hf)
    as (Hand & HandThen & HisOk & HisError & Hmap & HmapError & Hunwrap
        & HunwrapError & HunwrapOr).
  split; [split |].
  - by apply is_Result_cases.
  - intros [[v Hv] [e He]]. exact (is_Ok_not_Err _ _ _ _ Hv He).
  - split; [| repeat apply conj; by apply unchanged_of_preserves].
    apply is_Result_cases in Hr as [[v Hv] | [e He]].
    + exists true. unfold Result.isOk, Result.isError.
      rewrite !(dispatch_Ok _ _ _ _ _ _ Hv). split; [done |]. split; [done |].
      intros s' Hs'. pose proof (is_Ok_frozen _ _ _ _ Hv Hs') as Hv'.
      by rewrite !(dispatch_Ok _ _ _ _ _ _ Hv').
    + exists false. unfold Result.isOk, Result.isError.
      rewrite !(dispatch_Err _ _ _ _ _ _ He). split; [done |]. split; [done |].
      intros s' Hs'. pose proof (is_Err_frozen _ _ _ _ He Hs') as He'.
      by rewrite !(dispatch_Err _ _ _ _ _ _ He').
Qed.

Lemma variant_and_payload_are_fixed_witness :
  let s := State [OOk (VNum 42); OErr (VStr "Something went wrong")] 0 in
  let f := counted (λ value, Ok.new value) in
  is_Result s (VObj 0) ∧ encapsulated f
  ∧ unchanged_by (Result.andThen (VObj 0) f) s (VObj 0)
  ∧ unchanged_by (Result.map (VObj 0) f) s (VObj 0)
  ∧ unchanged_by (Result.unwrapError (VObj 0)) s (VObj 0).
Proof.
  intros s f.
  assert (is_Result s (VObj 0)) as Hr by (exists 0, (OOk (VNum 42)); done).
  assert (encapsulated f) as Hf.
  { apply preserves_counted. intros value. apply preserves_alloc. }
  split; [exact Hr |]. split; [exact Hf |].
  pose proof (variant_and_payload_are_fixed s (VObj 0) (VObj 1) VNull f Hr Hf)
    as (_ & _ & _ & HandThen & Hmap & _ & _ & HunwrapError & _).
  split; [exact HandThen |]. split; [exact Hmap | exact HunwrapError].
Defined.

(** ** Misuse *)

Lemma Err_unwrap_run this s :
  Err.unwrap this s
  = (Thrown (VObj (length (heap s))),
     State (heap s ++ [OError "Error" "Called unwrap on an Err value"]) (calls s)).
Proof. reflexivity. Qed.

Lemma Ok_unwrapError_run this s :
  Ok.unwrapError this s
  = (Thrown (VObj (length (heap s))),
     State (heap s ++ [OError "Error" "Called unwrapError on an Ok value"]) (calls s)).
Proof. reflexivity. Qed.

Lemma thrown_message_alloc {A} (c : JS A) s name message :
  c s = (Thrown (VObj (length (heap s))),
         State (heap s ++ [OError name message]) (calls s)) →
  thrown_message c s = Some message.
Proof. intros H. unfold thrown_message. rewrite H. simpl. by rewrite lookup_alloc_new. Qed.

Lemma returns_ret {A} (a : A) s : returns (mret a : JS A) s.
Proof. by eexists _, _. Qed.

Lemma throws_only_what_bind {A B} (m : JS A) (k : A → JS B) (cb : JS A) s :
  m s = cb s → (∀ a s', returns (k a) s') → throws_only_what (m ≫= k) cb s.
Proof.
  intros Hm Hk e s' H. rewrite <- Hm. unfold mbind, JS_bind in H.
  destruct (m s) as [[a | x] s1]; simpl in H; [| by injection H as <- <-].
  destruct (Hk a s1) as (b & s2 & Hb). congruence.
Qed.

(** C2, with the messages the specification quotes, fails: the error
    [new Err(e).unwrap()] throws does not carry the message
    "called unwrap on a Failure value", and the error
    [new Ok(v).unwrapError()] throws does not carry the message
    "called unwrapError on a Success value". *)
Lemma misuse_messages_are_not_the_quoted_ones :
  thrown_message (r ← Err.new (VStr "Something went wrong"); Result.unwrap r) initial
  ≠ Some "called unwrap on a Failure value"
  ∧ thrown_message (r ← Ok.new (VNum 42); Result.unwrapError r) initial
    ≠ Some "called unwrapError on a Success value".
Proof. split; vm_compute; discriminate. Qed.

(** C2, amended.  [unwrap()] on an [Err] instance throws, whatever the
    instance wraps, a new error object whose message is
    "Called unwrap on an Err value"; [unwrapError()] on an [Ok] instance
    throws, whatever the instance wraps, a new error object whose message is
    "Called unwrapError on an Ok value".  These are the only failures the
    library raises itself: every other method on an instance returns, except
    that [andThen] and [map] on an [Ok] instance and [mapError] on an [Err]
    instance throw what their callback throws when it does; [run] and
    [runAsync] always return.  In particular [new Err(e).unwrap()] and
    [new Ok(v).unwrapError()] throw errors with these messages for every [e]
    and [v]. *)
Theorem misuse_signals s r res d (f : val → JS val) (fn : JS val) (afn : JS promise) :
  (∀ e, is_Err s r e →
     thrown_message (Result.unwrap r) s = Some "Called unwrap on an Err value"
     ∧ (∃ x, fresh s x
          ∧ Result.unwrap r s
            = (Thrown x,
               State (heap s ++ [OError "Error" "Called unwrap on an Err value"])
                     (calls s)))
     ∧ returns (Result.and r res) s
     ∧ returns (Result.andThen r f) s
     ∧ returns (Result.isOk r) s
     ∧ returns (Result.isError r) s
     ∧ returns (Result.map r f) s
     ∧ throws_only_what (Result.mapError r f) (f e) s
     ∧ returns (Result.unwrapError r) s
     ∧ returns (Result.unwrapOr r d) s)
  ∧ (∀ v, is_Ok s r v →
     thrown_message (Result.unwrapError r) s = Some "Called unwrapError on an Ok value"
     ∧ (∃ x, fresh s x
          ∧ Result.unwrapError r s
            = (Thrown x,
               State (heap s ++ [OError "Error" "Called unwrapError on an Ok value"])
                     (calls s)))
     ∧ returns (Result.and r res) s
     ∧ throws_only_what (Result.andThen r f) (f v) s
     ∧ returns (Result.isOk r) s
     ∧ returns (Result.isError r) s
     ∧ throws_only_what (Result.map r f) (f v) s
     ∧ returns (Result.mapError r f) s
     ∧ returns (Result.unwrap r) s
     ∧ returns (Result.unwrapOr r d) s)
  ∧ returns (Result.run fn) s
  ∧ returns (Result.runAsync afn) s
  ∧ (∀ s0 e, thrown_message (x ← Err.new e; Result.unwrap x) s0
             = Some "Called unwrap on an Err value")
  ∧ (∀ s0 v, thrown_message (x ← Ok.new v; Result.unwrapError x) s0
             = Some "Called unwrapError on an Ok value").
Proof.
  split; [| split; [| split; [apply run_total | split; [apply runAsync_total |]]]];
    [| | split].
  3: { intros s0 e. unfold thrown_message. rewrite Err_new_bind.
       unfold Result.unwrap.
       rewrite (dispatch_Err _ _ _ _ _ _ (is_Err_alloc (heap s0) (calls s0) e)).
       rewrite Err_unwrap_run. simpl. by rewrite lookup_alloc_new. }
  3: { intros s0 v. unfold thrown_message. rewrite Ok_new_bind.
       unfold Result.unwrapError.
       rewrite (dispatch_Ok _ _ _ _ _ _ (is_Ok_alloc (heap s0) (calls s0) v)).
       rewrite Ok_unwrapError_run. simpl. by rewrite lookup_alloc_new. }
  - intros e H.
    assert (Result.unwrap r s = Err.unwrap r s) as Hu.
    { unfold Result.unwrap. by rewrite (dispatch_Err _ _ _ _ _ _ H). }
    split; [apply thrown_message_alloc with "Error"; by rewrite Hu |].
    split; [eexists; split; [apply fresh_next | by rewrite Hu] |].
    unfold Result.and, Result.andThen, Result.isOk, Result.isError, Result.map,
      Result.mapError, Result.unwrapError, Result.unwrapOr.
    unfold returns, throws_only_what.
    rewrite !(dispatch_Err _ _ _ _ _ _ H).
    repeat apply conj; try apply returns_ret.
    + unfold Err.mapError. intros x s' Hx.
      rewrite (bind_normal _ _ _ _ _ (get_error_Err _ _ _ H)) in Hx.
      revert x s' Hx. apply throws_only_what_bind; [done |].
      intros a s'. by eexists _, _.
    + eexists _, _. by apply get_error_Err.
  - intros v H.
    assert (Result.unwrapError r s = Ok.unwrapError r s) as Hu.
    { unfold Result.unwrapError. by rewrite (dispatch_Ok _ _ _ _ _ _ H). }
    split; [apply thrown_message_alloc with "Error"; by rewrite Hu |].
    split; [eexists; split; [apply fresh_next | by rewrite Hu] |].
    unfold Result.and, Result.andThen, Result.isOk, Result.isError, Result.map,
      Result.mapError, Result.unwrap, Result.unwrapOr.
    unfold returns, throws_only_what.
    rewrite !(dispatch_Ok _ _ _ _ _ _ H).
    repeat apply conj; try apply returns_ret.
    + unfold Ok.andThen. intros x s' Hx.
      by rewrite (bind_normal _ _ _ _ _ (get_value_Ok _ _ _ H)) in Hx.
    + unfold Ok.map. intros x s' Hx.
      rewrite (bind_normal _ _ _ _ _ (get_value_Ok _ _ _ H)) in Hx.
      revert x s' Hx. apply throws_only_what_bind; [done |].
      intros a s'. by eexists _, _.
    + eexists _, _. by apply get_value_Ok.
    + eexists _, _. by apply get_value_Ok.
Qed.

Lemma misuse_signals_witness :
  let s := State [OOk (VNum 42); OErr (VStr "Something went wrong")] 0 in
  (is_Err s (VObj 1) (VStr "Something went wrong")
   ∧ thrown_message (Result.unwrap (VObj 1)) s = Some "Called unwrap on an Err value")
  ∧ (is_Ok s (VObj 0) (VNum 42)
     ∧ thrown_message (Result.unwrapError (VObj 0)) s
       = Some "Called unwrapError on an Ok value").
Proof.
  intros s.
  assert (is_Err s (VObj 1) (VStr "Something went wrong")) as He
    by (exists 1; split; reflexivity).
  assert (is_Ok s (VObj 0) (VNum 42)) as Hv by (exists 0; split; reflexivity).
  split.
  - split; [exact He |].
    exact (proj1 (proj1 (misuse_signals s (VObj 1) VNull VNull
                           (λ x, mret x) (mret VNull) (mret Pending)) _ He)).
  - split; [exact Hv |].
    exact (proj1 (proj1 (proj2 (misuse_signals s (VObj 0) VNull VNull
                                  (λ x, mret x) (mret VNull) (mret Pending))) _ Hv)).
Defined.

(** ** Laws of the chaining methods *)

Lemma two_results_Ok : is_Ok two_results (VObj 0) (VNum 42).
Proof. exists 0. split; reflexivity. Qed.

Lemma two_results_Err : is_Err two_results (VObj 1) (VStr "Something went wrong").
Proof. exists 1. split; reflexivity. Qed.

Lemma Result_andThen_Ok s r v (f : val → JS val) :
  is_Ok s r v → Result.andThen r f s = f v s.
Proof.
  intros H. unfold Result.andThen. rewrite (dispatch_Ok _ _ _ _ _ _ H).
  unfold Ok.andThen. by rewrite (bind_normal _ _ _ _ _ (get_value_Ok _ _ _ H)).
Qed.

Lemma Result_andThen_Err s r e (f : val → JS val) :
  is_Err s r e → Result.andThen r f s = (Normal r, s).
Proof. intros H. unfold Result.andThen. by rewrite (dispatch_Err _ _ _ _ _ _ H). Qed.

Lemma Result_and_Ok s r v res : is_Ok s r v → Result.and r res s = (Normal res, s).
Proof. intros H. unfold Result.and. by rewrite (dispatch_Ok _ _ _ _ _ _ H). Qed.

Lemma Result_and_Err s r e res : is_Err s r e → Result.and r res s = (Normal r, s).
Proof. intros H. unfold Result.and. by rewrite (dispatch_Err _ _ _ _ _ _ H). Qed.

Lemma Result_map_Ok s r v (f : val → JS val) :
  is_Ok s r v → Result.map r f s = (u ← f v; Ok.new u) s.
Proof.
  intros H. unfold Result.map. rewrite (dispatch_Ok _ _ _ _ _ _ H).
  unfold Ok.map. by rewrite (bind_normal _ _ _ _ _ (get_value_Ok _ _ _ H)).
Qed.

Lemma Result_map_Err s r e (f : val → JS val) :
  is_Err s r e → Result.map r f s = (Normal r, s).
Proof. intros H. unfold Result.map. by rewrite (dispatch_Err _ _ _ _ _ _ H). Qed.

Lemma Result_mapError_Ok s r v (f : val → JS val) :
  is_Ok s r v → Result.mapError r f s = (Normal r, s).
Proof. intros H. unfold Result.mapError. by rewrite (dispatch_Ok _ _ _ _ _ _ H). Qed.

Lemma Result_mapError_Err s r e (f : val → JS val) :
  is_Err s r e → Result.mapError r f s = (u ← f e; Err.new u) s.
Proof.
  intros H. unfold Result.mapError. rewrite (dispatch_Err _ _ _ _ _ _ H).
  unfold Err.mapError. by rewrite (bind_normal _ _ _ _ _ (get_error_Err _ _ _ H)).
Qed.

Lemma dispatch_neither {A} m r (ok err : JS A) s :
  ¬ is_Result s r → Result.dispatch m r ok err s = not_a_function m s.
Proof.
  intros H. unfold Result.dispatch.
  destruct r as [| | | | | l]; try done.
  destruct (heap s !! l) as [[v | e | n msg] |] eqn:Hl; try done.
  - destruct H. by exists l, (OOk v).
  - destruct H. by exists l, (OErr e).
Qed.

Lemma is_Result_dec s r : is_Result s r ∨ ¬ is_Result s r.
Proof.
  destruct r as [| | | | | l];
    try (right; intros (l' & o & [=] & _); fail).
  destruct (heap s !! l) as [[v | e | n msg] |] eqn:Hl.
  - left. by exists l, (OOk v).
  - left. by exists l, (OErr e).
  - right. intros (l' & o & [= <-] & Ho & Hr). rewrite Hl in Ho. by injection Ho as <-.
  - right. intros (l' & o & [= <-] & Ho & _). congruence.
Qed.

(** X1.  [andThen] is associative: [r.andThen(f).andThen(g)] and
    [r.andThen((v) => f(v).andThen(g))] have the same outcome and leave the
    same state, for every receiver, every [f] and [g] (whether they return,
    throw, or have effects) and every state. *)
Theorem andThen_is_associative r (f g : val → JS val) s :
  (x ← Result.andThen r f; Result.andThen x g) s
  = Result.andThen r (λ v, x ← f v; Result.andThen x g) s.
Proof.
  destruct (is_Result_dec s r) as [Hr | Hr].
  - apply is_Result_cases in Hr as [[v Hv] | [e He]].
    + rewrite (Result_andThen_Ok _ _ _ _ Hv).
      unfold mbind at 1, JS_bind at 1.
      by rewrite (Result_andThen_Ok _ _ _ _ Hv).
    + rewrite (Result_andThen_Err _ _ _ _ He).
      rewrite (bind_normal _ _ _ _ _ (Result_andThen_Err _ _ _ f He)).
      by apply Result_andThen_Err with e.
  - unfold Result.andThen at 3. rewrite (dispatch_neither _ _ _ _ _ Hr).
    apply bind_thrown. unfold Result.andThen.
    by rewrite (dispatch_neither _ _ _ _ _ Hr).
Qed.

(** X2.  [r.andThen((value) => new Ok(value))] on an [Ok] instance wrapping
    [v] returns another instance, new, that also wraps [v], the receiver
    staying as it was; on an [Err] instance it returns the receiver itself
    and creates nothing. *)
Theorem andThen_new_Ok_rebuilds s r :
  (∀ v, is_Ok s r v →
     ∃ r' s', Result.andThen r Ok.new s = (Normal r', s')
       ∧ heap s' = heap s ++ [OOk v] ∧ calls s' = calls s
       ∧ fresh s r' ∧ r' ≠ r ∧ is_Ok s' r' v ∧ is_Ok s' r v)
  ∧ (∀ e, is_Err s r e → Result.andThen r Ok.new s = (Normal r, s)).
Proof.
  split.
  - intros v H. rewrite (Result_andThen_Ok _ _ _ _ H).
    eexists _, _. split; [reflexivity |]. split; [done |]. split; [done |].
    split; [apply fresh_next |]. split.
    + intros <-. by apply (fresh_not_Ok _ _ _ (fresh_next s)) in H.
    + split; [apply is_Ok_alloc |].
      apply (is_Ok_frozen s); [done | apply (results_frozen_alloc (OOk v))].
  - intros e H. by apply Result_andThen_Err with e.
Qed.

Lemma andThen_new_Ok_rebuilds_witness :
  (is_Ok two_results (VObj 0) (VNum 42)
   ∧ ∃ r' s', Result.andThen (VObj 0) Ok.new two_results = (Normal r', s')
       ∧ heap s' = heap two_results ++ [OOk (VNum 42)] ∧ calls s' = calls two_results
       ∧ fresh two_results r' ∧ r' ≠ VObj 0 ∧ is_Ok s' r' (VNum 42)
       ∧ is_Ok s' (VObj 0) (VNum 42))
  ∧ (is_Err two_results (VObj 1) (VStr "Something went wrong")
     ∧ Result.andThen (VObj 1) Ok.new two_results = (Normal (VObj 1), two_results)).
Proof.
  split.
  - split; [exact two_results_Ok |].
    exact (proj1 (andThen_new_Ok_rebuilds two_results (VObj 0)) _ two_results_Ok).
  - split; [exact two_results_Err |].
    exact (proj2 (andThen_new_Ok_rebuilds two_results (VObj 1)) _ two_results_Err).
Defined.

(** X3.  On every instance, [r.and(res)] is [r.andThen(() => res)]: the same
    result and no change of state. *)
Theorem and_is_andThen_constant s r res :
  is_Result s r → Result.and r res s = Result.andThen r (λ _, mret res) s.
Proof.
  intros Hr. apply is_Result_cases in Hr as [[v Hv] | [e He]].
  - by rewrite (Result_and_Ok _ _ _ _ Hv), (Result_andThen_Ok _ _ _ _ Hv).
  - by rewrite (Result_and_Err _ _ _ _ He), (Result_andThen_Err _ _ _ _ He).
Qed.

Lemma and_is_andThen_constant_witness :
  is_Result two_results (VObj 0)
  ∧ Result.and (VObj 0) (VObj 1) two_results
    = Result.andThen (VObj 0) (λ _, mret (VObj 1)) two_results.
Proof.
  assert (is_Result two_results (VObj 0)) as H by (exists 0, (OOk (VNum 42)); done).
  split; [exact H | exact (and_is_andThen_constant two_results (VObj 0) (VObj 1) H)].
Defined.

(** X4.  On every instance, [r.map(f)] is [r.andThen((v) => new Ok(f(v)))]:
    the same outcome and the same final state, for every [f], also one that
    throws or has effects. *)
Theorem map_is_andThen_new_Ok s r (f : val → JS val) :
  is_Result s r →
  Result.map r f s = Result.andThen r (λ v, u ← f v; Ok.new u) s.
Proof.
  intros Hr. apply is_Result_cases in Hr as [[v Hv] | [e He]].
  - by rewrite (Result_map_Ok _ _ _ _ Hv), (Result_andThen_Ok _ _ _ _ Hv).
  - by rewrite (Result_map_Err _ _ _ _ He), (Result_andThen_Err _ _ _ _ He).
Qed.

Lemma map_is_andThen_new_Ok_witness :
  let f := counted (pure_fn (λ _, VStr "42")) in
  is_Result two_results (VObj 0)
  ∧ Result.map (VObj 0) f two_results
    = Result.andThen (VObj 0) (λ v, u ← f v; Ok.new u) two_results.
Proof.
  intros f.
  assert (is_Result two_results (VObj 0)) as H by (exists 0, (OOk (VNum 42)); done).
  split; [exact H | exact (map_is_andThen_new_Ok two_results (VObj 0) f H)].
Defined.

(** X5.  When the callback throws, the method that runs it throws the same
    value and creates no instance: the state is the one the callback left.
    This is so for [map] and [andThen] on an [Ok] instance and for
    [mapError] on an [Err] instance. *)
Theorem callback_throw_propagates s r (f : val → JS val) x s1 :
  (∀ v, is_Ok s r v → f v s = (Thrown x, s1) →
     Result.map r f s = (Thrown x, s1) ∧ Result.andThen r f s = (Thrown x, s1))
  ∧ (∀ e, is_Err s r e → f e s = (Thrown x, s1) →
     Result.mapError r f s = (Thrown x, s1)).
Proof.
  split.
  - intros v H Hf. split.
    + rewrite (Result_map_Ok _ _ _ _ H). by apply bind_thrown.
    + by rewrite (Result_andThen_Ok _ _ _ _ H).
  - intros e H Hf. rewrite (Result_mapError_Err _ _ _ _ H). by apply bind_thrown.
Qed.

Lemma callback_throw_propagates_witness :
  let f : val → JS val := counted (λ v, throw (VStr "boom")) in
  let s1 := State (heap two_results) 1 in
  (is_Ok two_results (VObj 0) (VNum 42)
   ∧ f (VNum 42) two_results = (Thrown (VStr "boom"), s1)
   ∧ Result.map (VObj 0) f two_results = (Thrown (VStr "boom"), s1))
  ∧ (is_Err two_results (VObj 1) (VStr "Something went wrong")
     ∧ f (VStr "Something went wrong") two_results = (Thrown (VStr "boom"), s1)
     ∧ Result.mapError (VObj 1) f two_results = (Thrown (VStr "boom"), s1)).
Proof.
  intros f s1. split.
  - split; [exact two_results_Ok |]. split; [reflexivity |].
    exact (proj1 (proj1 (callback_throw_propagates two_results (VObj 0) f _ s1)
                    _ two_results_Ok eq_refl)).
  - split; [exact two_results_Err |]. split; [reflexivity |].
    exact (proj2 (callback_throw_propagates two_results (VObj 1) f _ s1)
             _ two_results_Err eq_refl).
Defined.

(** ** Chains *)

Lemma chain_cons r k ks s a s' :
  call r k s = (Normal a, s') → chain r (k :: ks) s = chain a ks s'.
Proof. intros H. simpl. unfold mbind, JS_bind. by rewrite H. Qed.

Lemma on_value_counted ks :
  forallb on_value (counted_link <$> ks) = forallb on_value ks.
Proof. induction ks as [| [] ks IH]; simpl; by rewrite ?IH. Qed.

Lemma on_error_counted ks :
  forallb on_error (counted_link <$> ks) = forallb on_error ks.
Proof. induction ks as [| [] ks IH]; simpl; by rewrite ?IH. Qed.

Lemma chain_Err_skips ks : ∀ s r e,
  is_Err s r e → forallb on_value ks = true → chain r ks s = (Normal r, s).
Proof.
  induction ks as [| k ks IH]; intros s r e H Hks; [done |].
  simpl in Hks. apply andb_prop in Hks as [Hk Hks].
  rewrite (chain_cons _ _ _ _ r s); [by apply IH with e |].
  destruct k as [res | f | f | f]; simpl; [| | | done].
  - by apply Result_and_Err with e.
  - by apply Result_andThen_Err with e.
  - by apply Result_map_Err with e.
Qed.

Lemma chain_Ok_skips ks : ∀ s r v,
  is_Ok s r v → forallb on_error ks = true → chain r ks s = (Normal r, s).
Proof.
  induction ks as [| k ks IH]; intros s r v H Hks; [done |].
  simpl in Hks. apply andb_prop in Hks as [Hk Hks].
  rewrite (chain_cons _ _ _ _ r s); [by apply IH with v |].
  destruct k as [res | f | f | f]; simpl; try done.
  by apply Result_mapError_Ok with v.
Qed.

(** X6.  An [Err] instance goes through a whole chain of [and], [andThen]
    and [map] calls, however long: the chain returns the receiver itself,
    the state is as it was, and no callback of the chain is run (with every
    callback instrumented, the call counter has not moved). *)
Theorem Err_short_circuits_a_chain s r e ks :
  is_Err s r e → forallb on_value ks = true →
  chain r ks s = (Normal r, s)
  ∧ chain r (counted_link <$> ks) s = (Normal r, s)
  ∧ calls (chain r (counted_link <$> ks) s).2 = calls s.
Proof.
  intros H Hks.
  assert (chain r (counted_link <$> ks) s = (Normal r, s)) as Hc.
  { apply chain_Err_skips with e; [done |]. by rewrite on_value_counted. }
  split; [by apply chain_Err_skips with e |]. split; [done |]. by rewrite Hc.
Qed.

Lemma Err_short_circuits_a_chain_witness :
  let ks := [LMap (pure_fn (λ _, VStr "42")); LAndThen Ok.new; LAnd (VObj 0)] in
  is_Err two_results (VObj 1) (VStr "Something went wrong")
  ∧ forallb on_value ks = true
  ∧ chain (VObj 1) ks two_results = (Normal (VObj 1), two_results)
  ∧ chain (VObj 1) (counted_link <$> ks) two_results = (Normal (VObj 1), two_results).
Proof.
  intros ks. split; [exact two_results_Err |]. split; [reflexivity |].
  pose proof (Err_short_circuits_a_chain two_results (VObj 1) _ ks
                two_results_Err eq_refl) as (H1 & H2 & _).
  split; [exact H1 | exact H2].
Defined.

(** X7.  An [Ok] instance goes through a whole chain of [mapError] calls,
    however long: the chain returns the receiver itself, the state is as it
    was, and no callback of the chain is run. *)
Theorem Ok_passes_through_mapError_chain s r v ks :
  is_Ok s r v → forallb on_error ks = true →
  chain r ks s = (Normal r, s)
  ∧ chain r (counted_link <$> ks) s = (Normal r, s)
  ∧ calls (chain r (counted_link <$> ks) s).2 = calls s.
Proof.
  intros H Hks.
  assert (chain r (counted_link <$> ks) s = (Normal r, s)) as Hc.
  { apply chain_Ok_skips with v; [done |]. by rewrite on_error_counted. }
  split; [by apply chain_Ok_skips with v |]. split; [done |]. by rewrite Hc.
Qed.

Lemma Ok_passes_through_mapError_chain_witness :
  let ks := [LMapError (pure_fn (λ _, VStr "New error")); LMapError Err.new] in
  is_Ok two_results (VObj 0) (VNum 42)
  ∧ forallb on_error ks = true
  ∧ chain (VObj 0) ks two_results = (Normal (VObj 0), two_results)
  ∧ chain (VObj 0) (counted_link <$> ks) two_results = (Normal (VObj 0), two_results).
Proof.
  intros ks. split; [exact two_results_Ok |]. split; [reflexivity |].
  pose proof (Ok_passes_through_mapError_chain two_results (VObj 0) _ ks
                two_results_Ok eq_refl) as (H1 & H2 & _).
  split; [exact H1 | exact H2].
Defined.

(** X8.  On an [Ok] instance wrapping [v], a chain of [map] calls with plain
    functions [g1, ..., gn] returns an [Ok] instance wrapping
    [gn (... (g1 v))]; it creates exactly [n] objects, one per call, and
    leaves every instance that existed, the receiver included, as it was. *)
Theorem map_chain_composes gs : ∀ s r v,
  is_Ok s r v →
  ∃ r' s', chain r ((λ g, LMap (pure_fn g)) <$> gs) s = (Normal r', s')
    ∧ is_Ok s' r' (foldl (λ a g, g a) v gs)
    ∧ length (heap s') = length (heap s) + length gs
    ∧ calls s' = calls s
    ∧ results_frozen s s'
    ∧ is_Ok s' r v.
Proof.
  induction gs as [| g gs IH]; intros s r v H.
  - exists r, s. simpl. rewrite Nat.add_0_r.
    repeat split; [done | apply results_frozen_refl | done].
  - pose (s1 := State (heap s ++ [OOk (g v)]) (calls s)).
    assert (results_frozen s s1) as Hfz by apply (results_frozen_alloc (OOk (g v))).
    destruct (IH s1 _ (g v) (is_Ok_alloc (heap s) (calls s) (g v)))
      as (r' & s' & Hc & Hok & Hlen & Hcalls & Hfz' & _).
    exists r', s'. rewrite fmap_cons.
    rewrite (chain_cons _ _ _ _ (VObj (length (heap s))) s1);
      [| simpl; by rewrite (Result_map_Ok _ _ _ _ H)].
    split; [done |]. split; [done |]. split.
    { rewrite Hlen. subst s1. simpl. rewrite length_app. simpl. lia. }
    split; [done |].
    assert (results_frozen s s') as Hall by by apply results_frozen_trans with s1.
    split; [done | by apply (is_Ok_frozen s)].
Qed.

Lemma map_chain_composes_witness :
  let gs := [λ _, VStr "42"; λ x, match x with VStr t => VStr (t +:+ "!") | _ => x end] in
  is_Ok two_results (VObj 0) (VNum 42)
  ∧ ∃ r' s', chain (VObj 0) ((λ g, LMap (pure_fn g)) <$> gs) two_results = (Normal r', s')
      ∧ is_Ok s' r' (VStr "42!")
      ∧ length (heap s') = 4.
Proof.
  intros gs. split; [exact two_results_Ok |].
  destruct (map_chain_composes gs two_results (VObj 0) _ two_results_Ok)
    as (r' & s' & Hc & Hok & Hlen & _).
  exists r', s'. split; [exact Hc |]. split; [exact Hok | exact Hlen].
Defined.

Lemma preserves_call r k : link_encapsulated k → preserves_results (call r k).
Proof.
  intros Hk.
  assert (encapsulated (λ v : val, mret v : JS val)) as Hid
    by (intros v; apply preserves_ret).
  destruct k as [res | f | f | f]; simpl in *.
  - by destruct (preserves_methods r res VNull _ Hid) as (? & _).
  - by destruct (preserves_methods r VNull VNull f Hk) as (_ & ? & _).
  - by destruct (preserves_methods r VNull VNull f Hk) as (_ & _ & _ & _ & ? & _).
  - by destruct (preserves_methods r VNull VNull f Hk) as (_ & _ & _ & _ & _ & ? & _).
Qed.

Lemma preserves_chain ks : ∀ r,
  Forall link_encapsulated ks → preserves_results (chain r ks).
Proof.
  induction ks as [| k ks IH]; intros r Hks; simpl.
  - apply preserves_ret.
  - apply Forall_cons in Hks as [Hk Hks].
    apply preserves_bind; [by apply preserves_call | intros x; by apply IH].
Qed.

(** X9.  No chain of [and], [andThen], [map] and [mapError] calls, however
    long and whether it returns or throws, changes an instance that existed
    before it: each keeps its class and its field, the receiver of the chain
    included.  The callbacks are taken not to reach into existing instances,
    which code outside the two classes cannot do. *)
Theorem chain_leaves_instances_alone ks r s :
  Forall link_encapsulated ks →
  results_frozen s (chain r ks s).2
  ∧ (is_Result s r → unchanged_by (chain r ks) s r)
  ∧ (∀ x v, is_Ok s x v → is_Ok (chain r ks s).2 x v)
  ∧ (∀ x e, is_Err s x e → is_Err (chain r ks s).2 x e).
Proof.
  intros Hks. pose proof (preserves_chain ks r Hks) as Hp.
  split; [apply Hp |]. split; [intros Hr; by apply unchanged_of_preserves |].
  split; intros x w H.
  - apply (is_Ok_frozen s); [done | apply Hp].
  - apply (is_Err_frozen s); [done | apply Hp].
Qed.

Lemma chain_leaves_instances_alone_witness :
  let ks := [LMap (counted (pure_fn (λ _, VStr "42"))); LAndThen Err.new;
             LMapError (counted Ok.new); LAnd (VObj 1)] in
  Forall link_encapsulated ks
  ∧ is_Ok (chain (VObj 0) ks two_results).2 (VObj 0) (VNum 42)
  ∧ is_Err (chain (VObj 0) ks two_results).2 (VObj 1) (VStr "Something went wrong").
Proof.
  intros ks.
  assert (Forall link_encapsulated ks) as Hks.
  { apply Forall_cons_2;
      [simpl; apply preserves_counted; intros v; apply preserves_ret |].
    apply Forall_cons_2; [simpl; intros v; apply preserves_alloc |].
    apply Forall_cons_2;
      [simpl; apply preserves_counted; intros v; apply preserves_alloc |].
    apply Forall_cons_2; [exact I | apply Forall_nil_2]. }
  split; [exact Hks |].
  pose proof (chain_leaves_instances_alone ks (VObj 0) two_results Hks)
    as (_ & _ & Hok & Herr).
  split; [exact (Hok _ _ two_results_Ok) | exact (Herr _ _ two_results_Err)].
Defined.

(** ** The predicates as guards *)

Lemma Result_isOk_cases r s o s0 :
  Result.isOk r s = (Normal o, s0) →
  s0 = s ∧ ((o = VBool true ∧ ∃ v, is_Ok s r v) ∨ (o = VBool false ∧ ∃ e, is_Err s r e)).
Proof.
  intros H. destruct (is_Result_dec s r) as [Hr | Hr].
  - apply is_Result_cases in Hr as [[v Hv] | [e He]]; unfold Result.isOk in H.
    + rewrite (dispatch_Ok _ _ _ _ _ _ Hv) in H. injection H as <- <-.
      split; [done |]. left. split; [done | by exists v].
    + rewrite (dispatch_Err _ _ _ _ _ _ He) in H. injection H as <- <-.
      split; [done |]. right. split; [done | by exists e].
  - unfold Result.isOk in H. by rewrite (dispatch_neither _ _ _ _ _ Hr) in H.
Qed.

Lemma Result_isError_cases r s o s0 :
  Result.isError r s = (Normal o, s0) →
  s0 = s ∧ ((o = VBool false ∧ ∃ v, is_Ok s r v) ∨ (o = VBool true ∧ ∃ e, is_Err s r e)).
Proof.
  intros H. destruct (is_Result_dec s r) as [Hr | Hr].
  - apply is_Result_cases in Hr as [[v Hv] | [e He]]; unfold Result.isError in H.
    + rewrite (dispatch_Ok _ _ _ _ _ _ Hv) in H. injection H as <- <-.
      split; [done |]. left. split; [done | by exists v].
    + rewrite (dispatch_Err _ _ _ _ _ _ He) in H. injection H as <- <-.
      split; [done |]. right. split; [done | by exists e].
  - unfold Result.isError in H. by rewrite (dispatch_neither _ _ _ _ _ Hr) in H.
Qed.

(** X10.  The predicates are sound guards.  When [r.isOk()] has returned
    [true], [r] is an [Ok] instance, and in every later state in which the
    existing instances have been left alone [r.unwrap()] returns its value
    without throwing; when [r.isError()] has returned [true], [r] is an
    [Err] instance and [r.unwrapError()] returns its error without throwing.
    When they have returned [false], [r] is an instance of the other class. *)
Theorem predicates_are_sound_guards r s s0 :
  (Result.isOk r s = (Normal (VBool true), s0) →
     s0 = s ∧ ∃ v, is_Ok s r v
       ∧ ∀ s', results_frozen s s' → Result.unwrap r s' = (Normal v, s'))
  ∧ (Result.isError r s = (Normal (VBool true), s0) →
     s0 = s ∧ ∃ e, is_Err s r e
       ∧ ∀ s', results_frozen s s' → Result.unwrapError r s' = (Normal e, s'))
  ∧ (Result.isOk r s = (Normal (VBool false), s0) → ∃ e, is_Err s r e)
  ∧ (Result.isError r s = (Normal (VBool false), s0) → ∃ v, is_Ok s r v).
Proof.
  repeat apply conj.
  - intros H. apply Result_isOk_cases in H as [-> [[_ [v Hv]] | [[=] _]]].
    split; [done |]. exists v. split; [done |].
    intros s' Hs'. by apply Result_unwrap_Ok, (is_Ok_frozen s).
  - intros H. apply Result_isError_cases in H as [-> [[[=] _] | [_ [e He]]]].
    split; [done |]. exists e. split; [done |].
    intros s' Hs'. by apply Result_unwrapError_Err, (is_Err_frozen s).
  - intros H. by apply Result_isOk_cases in H as [_ [[[=] _] | [_ He]]].
  - intros H. by apply Result_isError_cases in H as [_ [[_ Hv] | [[=] _]]].
Qed.

Lemma predicates_are_sound_guards_witness :
  (Result.isOk (VObj 0) two_results = (Normal (VBool true), two_results)
   ∧ ∃ v, is_Ok two_results (VObj 0) v
       ∧ ∀ s', results_frozen two_results s' → Result.unwrap (VObj 0) s' = (Normal v, s'))
  ∧ (Result.isError (VObj 1) two_results = (Normal (VBool true), two_results)
     ∧ ∃ e, is_Err two_results (VObj 1) e
         ∧ ∀ s', results_frozen two_results s' →
                 Result.unwrapError (VObj 1) s' = (Normal e, s')).
Proof.
  split.
  - split; [reflexivity |].
    exact (proj2 (proj1 (predicates_are_sound_guards (VObj 0) two_results two_results)
                    eq_refl)).
  - split; [reflexivity |].
    exact (proj2 (proj1 (proj2
             (predicates_are_sound_guards (VObj 1) two_results two_results)) eq_refl)).
Defined.

(** ** The adapters in use *)

Lemma Result_unwrap_Err s r e :
  is_Err s r e →
  Result.unwrap r s
  = (Thrown (VObj (length (heap s))),
     State (heap s ++ [OError "Error" "Called unwrap on an Err value"]) (calls s)).
Proof. intros H. unfold Result.unwrap. by rewrite (dispatch_Err _ _ _ _ _ _ H). Qed.

Lemma Result_unwrapError_Ok s r v :
  is_Ok s r v →
  Result.unwrapError r s
  = (Thrown (VObj (length (heap s))),
     State (heap s ++ [OError "Error" "Called unwrapError on an Ok value"]) (calls s)).
Proof. intros H. unfold Result.unwrapError. by rewrite (dispatch_Ok _ _ _ _ _ _ H). Qed.

Lemma length_alloc (h : list obj) o : length (h ++ [o]) = S (length h).
Proof. rewrite length_app. simpl. lia. Qed.

(** X11.  Extracting the wrong side of what [run] returns loses the outcome:
    when [fn] throws [e], [run(fn).unwrap()] throws not [e] but a new error
    object with the message "Called unwrap on an Err value", made after the
    [Err] instance that holds [e]; when [fn] returns [v],
    [run(fn).unwrapError()] throws a new error object with the message
    "Called unwrapError on an Ok value". *)
Theorem run_then_wrong_unwrap (fn : JS val) s :
  (∀ e s1, fn s = (Thrown e, s1) →
     (x ← Result.run fn; Result.unwrap x) s
     = (Thrown (VObj (S (length (heap s1)))),
        State (heap s1 ++ [OErr e; OError "Error" "Called unwrap on an Err value"])
              (calls s1))
     ∧ fresh s1 (VObj (S (length (heap s1))))
     ∧ thrown_message (x ← Result.run fn; Result.unwrap x) s
       = Some "Called unwrap on an Err value")
  ∧ (∀ v s1, fn s = (Normal v, s1) →
     (x ← Result.run fn; Result.unwrapError x) s
     = (Thrown (VObj (S (length (heap s1)))),
        State (heap s1 ++ [OOk v; OError "Error" "Called unwrapError on an Ok value"])
              (calls s1))
     ∧ fresh s1 (VObj (S (length (heap s1))))
     ∧ thrown_message (x ← Result.run fn; Result.unwrapError x) s
       = Some "Called unwrapError on an Ok value").
Proof.
  assert (∀ s1 : state, fresh s1 (VObj (S (length (heap s1))))) as Hfresh.
  { intros s1. eexists. split; [done |]. apply lookup_ge_None. lia. }
  split.
  - intros e s1 H.
    assert ((x ← Result.run fn; Result.unwrap x) s
            = (Thrown (VObj (S (length (heap s1)))),
               State (heap s1 ++ [OErr e; OError "Error" "Called unwrap on an Err value"])
                     (calls s1))) as Heq.
    { rewrite (bind_normal _ _ _ _ _ (run_throws _ _ _ _ H)).
      rewrite (Result_unwrap_Err _ _ _ (is_Err_alloc (heap s1) (calls s1) e)).
      simpl. by rewrite length_alloc, <- app_assoc. }
    split; [done |]. split; [apply Hfresh |].
    unfold thrown_message. rewrite Heq. simpl.
    rewrite cons_middle, app_assoc, <- (length_alloc (heap s1) (OErr e)).
    by rewrite lookup_alloc_new.
  - intros v s1 H.
    assert ((x ← Result.run fn; Result.unwrapError x) s
            = (Thrown (VObj (S (length (heap s1)))),
               State (heap s1 ++ [OOk v; OError "Error" "Called unwrapError on an Ok value"])
                     (calls s1))) as Heq.
    { rewrite (bind_normal _ _ _ _ _ (run_returns _ _ _ _ H)).
      rewrite (Result_unwrapError_Ok _ _ _ (is_Ok_alloc (heap s1) (calls s1) v)).
      simpl. by rewrite length_alloc, <- app_assoc. }
    split; [done |]. split; [apply Hfresh |].
    unfold thrown_message. rewrite Heq. simpl.
    rewrite cons_middle, app_assoc, <- (length_alloc (heap s1) (OOk v)).
    by rewrite lookup_alloc_new.
Qed.

Lemma run_then_wrong_unwrap_witness :
  let fn : JS val := throw (VStr "boom") in
  fn initial = (Thrown (VStr "boom"), initial)
  ∧ (x ← Result.run fn; Result.unwrap x) initial
    = (Thrown (VObj 1),
       State [OErr (VStr "boom"); OError "Error" "Called unwrap on an Err value"] 0).
Proof.
  intros fn. split; [reflexivity |].
  exact (proj1 (proj1 (run_then_wrong_unwrap fn initial) _ _ eq_refl)).
Defined.

Lemma run_result (fn : JS val) s :
  ∃ r s', Result.run fn s = (Normal r, s') ∧ is_Result s' r ∧ results_frozen (fn s).2 s'.
Proof.
  destruct (fn s) as [[v | e] s1] eqn:H; eexists _, _.
  - split; [by apply run_returns |]. split.
    + apply is_Result_cases. left. exists v. apply is_Ok_alloc.
    + apply (results_frozen_alloc (OOk v) s1).
  - split; [by apply run_throws |]. split.
    + apply is_Result_cases. right. exists e. apply is_Err_alloc.
    + apply (results_frozen_alloc (OErr e) s1).
Qed.

Lemma Result_isOk_Ok s r v : is_Ok s r v → Result.isOk r s = (Normal (VBool true), s).
Proof. intros H. unfold Result.isOk. by rewrite (dispatch_Ok _ _ _ _ _ _ H). Qed.

(** X12.  [run] does not flatten.  [run(() => run(fn))] is always an [Ok]
    instance, and what it wraps is the instance the inner [run] returned,
    [Ok] or [Err]; and when [fn] itself returns an [Err] instance, as in
    [run(() => new Err(e))], the result is an [Ok] instance wrapping that
    [Err] instance, so [isOk()] on it is [true]. *)
Theorem run_does_not_flatten (fn : JS val) s e :
  (∃ inner s1 r s2,
     Result.run fn s = (Normal inner, s1) ∧ is_Result s1 inner
     ∧ Result.run (Result.run fn) s = (Normal r, s2)
     ∧ heap s2 = heap s1 ++ [OOk inner] ∧ calls s2 = calls s1
     ∧ is_Ok s2 r inner ∧ is_Result s2 inner)
  ∧ (∃ inner r s2,
       Result.run (Err.new e) s = (Normal r, s2)
       ∧ heap s2 = heap s ++ [OErr e; OOk inner]
       ∧ is_Ok s2 r inner ∧ is_Err s2 inner e
       ∧ Result.isOk r s2 = (Normal (VBool true), s2)).
Proof.
  split.
  - destruct (run_result fn s) as (inner & s1 & Hrun & Hres & _).
    exists inner, s1. eexists _, _. split; [done |]. split; [done |].
    split; [by apply run_returns |]. split; [done |]. split; [done |].
    split; [apply is_Ok_alloc |].
    apply is_Result_cases.
    apply is_Result_cases in Hres as [[v Hv] | [x Hx]]; [left; exists v | right; exists x].
    + apply (is_Ok_frozen s1); [done | apply (results_frozen_alloc (OOk inner))].
    + apply (is_Err_frozen s1); [done | apply (results_frozen_alloc (OOk inner))].
  - eexists _, _, _. split; [exact (run_returns (Err.new e) s _ _ eq_refl) |].
    simpl. split; [by rewrite <- app_assoc |].
    assert (is_Ok (State ((heap s ++ [OErr e]) ++ [OOk (VObj (length (heap s)))]) (calls s))
              (VObj (length (heap s ++ [OErr e]))) (VObj (length (heap s)))) as Hok
      by apply is_Ok_alloc.
    split; [done |]. split.
    + apply (is_Err_frozen (State (heap s ++ [OErr e]) (calls s)));
        [apply is_Err_alloc |].
      apply (results_frozen_alloc (OOk (VObj (length (heap s))))
               (State (heap s ++ [OErr e]) (calls s))).
    + exact (Result_isOk_Ok _ _ _ Hok).
Qed.

(** X13.  Going through [run] again: on an [Ok] instance wrapping [v],
    [run(() => r.unwrap())] is a new [Ok] instance wrapping [v]; on an [Err]
    instance wrapping [e], [run(() => r.unwrapError())] is a new [Ok]
    instance wrapping [e], and [run(() => r.unwrap())] is a new [Err]
    instance that wraps not [e] but the error object [unwrap] made, with the
    message "Called unwrap on an Err value". *)
Theorem run_of_an_extraction s r :
  (∀ v, is_Ok s r v →
     Result.run (Result.unwrap r) s
     = (Normal (VObj (length (heap s))), State (heap s ++ [OOk v]) (calls s)))
  ∧ (∀ e, is_Err s r e →
     Result.run (Result.unwrapError r) s
     = (Normal (VObj (length (heap s))), State (heap s ++ [OOk e]) (calls s)))
  ∧ (∀ e, is_Err s r e →
     Result.run (Result.unwrap r) s
     = (Normal (VObj (S (length (heap s)))),
        State (heap s ++ [OError "Error" "Called unwrap on an Err value";
                          OErr (VObj (length (heap s)))]) (calls s)))
  ∧ (∀ v, is_Ok s r v →
     Result.run (Result.unwrapError r) s
     = (Normal (VObj (S (length (heap s)))),
        State (heap s ++ [OError "Error" "Called unwrapError on an Ok value";
                          OErr (VObj (length (heap s)))]) (calls s))).
Proof.
  repeat apply conj.
  - intros v H. by rewrite (run_returns _ _ _ _ (Result_unwrap_Ok _ _ _ H)).
  - intros e H. by rewrite (run_returns _ _ _ _ (Result_unwrapError_Err _ _ _ H)).
  - intros e H. rewrite (run_throws _ _ _ _ (Result_unwrap_Err _ _ _ H)).
    simpl. by rewrite length_alloc, <- app_assoc.
  - intros v H. rewrite (run_throws _ _ _ _ (Result_unwrapError_Ok _ _ _ H)).
    simpl. by rewrite length_alloc, <- app_assoc.
Qed.

Lemma run_of_an_extraction_witness :
  (is_Ok two_results (VObj 0) (VNum 42)
   ∧ Result.run (Result.unwrap (VObj 0)) two_results
     = (Normal (VObj 2), State (heap two_results ++ [OOk (VNum 42)]) 0))
  ∧ (is_Err two_results (VObj 1) (VStr "Something went wrong")
     ∧ Result.run (Result.unwrap (VObj 1)) two_results
       = (Normal (VObj 3),
          State (heap two_results ++ [OError "Error" "Called unwrap on an Err value";
                                      OErr (VObj 2)]) 0)).
Proof.
  split.
  - split; [exact two_results_Ok |].
    exact (proj1 (run_of_an_extraction two_results (VObj 0)) _ two_results_Ok).
  - split; [exact two_results_Err |].
    exact (proj1 (proj2 (proj2 (run_of_an_extraction two_results (VObj 1))))
             _ two_results_Err).
Defined.

(** X14.  How the promise of [runAsync(fn)] settles.  It is rejected exactly
    when [fn] throws before it has returned a promise, with the thrown value
    and without an [Err] instance being made; it never settles exactly when
    the promise [fn] returned never settles; and whenever it is fulfilled, it
    is fulfilled with an instance of [Ok] or [Err]. *)
Theorem runAsync_settlement (fn : JS promise) s :
  (∀ e s', Result.runAsync fn s = (Normal (Rejected e), s') ↔ fn s = (Thrown e, s'))
  ∧ (∀ s', Result.runAsync fn s = (Normal Pending, s') ↔ fn s = (Normal Pending, s'))
  ∧ (∀ r s', Result.runAsync fn s = (Normal (Fulfilled r), s') → is_Result s' r).
Proof.
  destruct (fn s) as [[[| v | x] | x] s1] eqn:H.
  - rewrite (runAsync_pending _ _ _ H).
    repeat split; intros; by simplify_eq.
  - rewrite (runAsync_fulfilled _ _ _ _ H).
    repeat split; intros; simplify_eq.
    apply is_Result_cases. left. exists v. apply is_Ok_alloc.
  - rewrite (runAsync_rejected _ _ _ _ H).
    repeat split; intros; simplify_eq.
    apply is_Result_cases. right. exists x. apply is_Err_alloc.
  - rewrite (runAsync_synchronous_throw _ _ _ _ H).
    repeat split; intros; by simplify_eq.
Qed.

Lemma runAsync_settlement_witness :
  let fn : JS promise := e ← new_Error "Failure"; throw e in
  let s' := State [OError "Error" "Failure"] 0 in
  fn initial = (Thrown (VObj 0), s')
  ∧ Result.runAsync fn initial = (Normal (Rejected (VObj 0)), s').
Proof.
  intros fn s'. split; [reflexivity |].
  exact (proj2 (proj1 (runAsync_settlement fn initial) (VObj 0) s') eq_refl).
Defined.

Lemma runAsync_calls (fn : JS promise) s :
  calls (Result.runAsync fn s).2 = calls (fn s).2.
Proof.
  destruct (fn s) as [[[| v | x] | x] s1] eqn:H.
  - by rewrite (runAsync_pending _ _ _ H).
  - by rewrite (runAsync_fulfilled _ _ _ _ H).
  - by rewrite (runAsync_rejected _ _ _ _ H).
  - by rewrite (runAsync_synchronous_throw _ _ _ _ H).
Qed.

(** X15.  [runAsync(fn)] calls [fn] once, whatever comes of it: an [fn]
    instrumented with a call counter that it does not touch itself is
    counted exactly once, whether its promise is fulfilled, rejected or never
    settles, and also when [fn] throws. *)
Theorem runAsync_calls_fn_once (fn : JS promise) s :
  (∀ s0, calls (fn s0).2 = calls s0) →
  calls (Result.runAsync (counted0 fn) s).2 = S (calls s).
Proof.
  intros H. rewrite runAsync_calls. unfold counted0.
  rewrite (bind_normal tick _ s () (tick s).2 eq_refl). by rewrite H.
Qed.

Lemma runAsync_calls_fn_once_witness :
  let fn : JS promise := settle (e ← new_Error "Failure"; throw e) in
  (∀ s0, calls (fn s0).2 = calls s0)
  ∧ calls (Result.runAsync (counted0 fn) initial).2 = 1.
Proof.
  intros fn.
  assert (∀ s0, calls (fn s0).2 = calls s0) as H by reflexivity.
  split; [exact H | exact (runAsync_calls_fn_once fn initial H)].
Defined.

Lemma Result_unwrapOr_Ok s r v d :
  is_Ok s r v → Result.unwrapOr r d s = (Normal v, s).
Proof.
  intros H. unfold Result.unwrapOr. rewrite (dispatch_Ok _ _ _ _ _ _ H).
  by apply get_value_Ok.
Qed.

Lemma Result_unwrapOr_Err s r e d :
  is_Err s r e → Result.unwrapOr r d s = (Normal d, s).
Proof. intros H. unfold Result.unwrapOr. by rewrite (dispatch_Err _ _ _ _ _ _ H). Qed.

(** X17.  [run(fn).map(g).unwrapOr(d)] with a plain function [g] never
    throws: it is [g v] when [fn] returns [v], and [d] when [fn] throws, in
    which case [g] is not applied and only the [Err] instance is made. *)
Theorem run_map_unwrapOr_is_total (fn : JS val) (g : val → val) d s :
  (x ← Result.run fn; y ← Result.map x (pure_fn g); Result.unwrapOr y d) s
  = match fn s with
    | (Normal v, s1) =>
        (Normal (g v), State (heap s1 ++ [OOk v; OOk (g v)]) (calls s1))
    | (Thrown e, s1) =>
        (Normal d, State (heap s1 ++ [OErr e]) (calls s1))
    end.
Proof.
  destruct (fn s) as [[v | e] s1] eqn:H.
  - rewrite (bind_normal _ _ _ _ _ (run_returns _ _ _ _ H)).
    pose proof (is_Ok_alloc (heap s1) (calls s1) v) as Hv.
    pose proof (is_Ok_alloc (heap s1 ++ [OOk v]) (calls s1) (g v)) as Hgv.
    assert (Result.map (VObj (length (heap s1))) (pure_fn g)
              (State (heap s1 ++ [OOk v]) (calls s1))
            = (Normal (VObj (length (heap s1 ++ [OOk v]))),
               State ((heap s1 ++ [OOk v]) ++ [OOk (g v)]) (calls s1))) as Hmap
      by by rewrite (Result_map_Ok _ _ _ _ Hv).
    rewrite (bind_normal _ _ _ _ _ Hmap).
    rewrite (Result_unwrapOr_Ok _ _ _ d Hgv). by rewrite <- app_assoc.
  - rewrite (bind_normal _ _ _ _ _ (run_throws _ _ _ _ H)).
    pose proof (is_Err_alloc (heap s1) (calls s1) e) as He.
    rewrite (bind_normal _ _ _ _ _ (Result_map_Err _ _ _ (pure_fn g) He)).
    by rewrite (Result_unwrapOr_Err _ _ _ d He).
Qed.

Lemma run_map_unwrapOr_is_total_example :
  (x ← Result.run (throw (VStr "boom"));
   y ← Result.map x (pure_fn (λ _, VStr "never"));
   Result.unwrapOr y (VNum 0)) initial
  = (Normal (VNum 0), State [OErr (VStr "boom")] 0).
Proof. reflexivity. Qed.

(** X16.  A failure in the middle of a chain stops the rest of it: on an
    [Ok] instance, when a step [andThen(() => new Err(e))] is followed by
    any number of [and], [andThen] and [map] calls, the chain returns the
    [Err] instance that step made, and none of the later callbacks is run. *)
Theorem failing_step_stops_the_chain s r v e ks :
  is_Ok s r v → forallb on_value ks = true →
  chain r (LAndThen (λ _, Err.new e) :: ks) s = Err.new e s
  ∧ chain r (LAndThen (λ _, Err.new e) :: (counted_link <$> ks)) s = Err.new e s
  ∧ ∃ r' s', Err.new e s = (Normal r', s') ∧ is_Err s' r' e ∧ calls s' = calls s.
Proof.
  intros H Hks.
  pose proof (is_Err_alloc (heap s) (calls s) e) as He.
  assert (∀ ks', forallb on_value ks' = true →
            chain r (LAndThen (λ _, Err.new e) :: ks') s = Err.new e s) as Hgen.
  { intros ks' Hks'.
    rewrite (chain_cons _ _ _ _ (VObj (length (heap s)))
               (State (heap s ++ [OErr e]) (calls s)));
      [| simpl; by rewrite (Result_andThen_Ok _ _ _ _ H)].
    by apply chain_Err_skips with e. }
  split; [by apply Hgen |]. split; [apply Hgen; by rewrite on_value_counted |].
  by eexists _, _.
Qed.

Lemma failing_step_stops_the_chain_witness :
  let ks := [LMap (pure_fn (λ _, VStr "42")); LAndThen Ok.new] in
  is_Ok two_results (VObj 0) (VNum 42)
  ∧ forallb on_value ks = true
  ∧ chain (VObj 0) (LAndThen (λ _, Err.new (VStr "stop")) :: ks) two_results
    = Err.new (VStr "stop") two_results.
Proof.
  intros ks. split; [exact two_results_Ok |]. split; [reflexivity |].
  exact (proj1 (failing_step_stops_the_chain two_results (VObj 0) _ (VStr "stop") ks
                  two_results_Ok eq_refl)).
Defined.

(** X18.  On an [Err] instance wrapping [e], a chain of [mapError] calls
    with plain functions [g1, ..., gn] returns an [Err] instance wrapping
    [gn (... (g1 e))]; it creates exactly [n] objects, one per call, and
    leaves every instance that existed, the receiver included, as it was. *)
Theorem mapError_chain_composes gs : ∀ s r e,
  is_Err s r e →
  ∃ r' s', chain r ((λ g, LMapError (pure_fn g)) <$> gs) s = (Normal r', s')
    ∧ is_Err s' r' (foldl (λ a g, g a) e gs)
    ∧ length (heap s') = length (heap s) + length gs
    ∧ calls s' = calls s
    ∧ results_frozen s s'
    ∧ is_Err s' r e.
Proof.
  induction gs as [| g gs IH]; intros s r e H.
  - exists r, s. simpl. rewrite Nat.add_0_r.
    repeat split; [done | apply results_frozen_refl | done].
  - pose (s1 := State (heap s ++ [OErr (g e)]) (calls s)).
    assert (results_frozen s s1) as Hfz by apply (results_frozen_alloc (OErr (g e))).
    destruct (IH s1 _ (g e) (is_Err_alloc (heap s) (calls s) (g e)))
      as (r' & s' & Hc & Hok & Hlen & Hcalls & Hfz' & _).
    exists r', s'. rewrite fmap_cons.
    rewrite (chain_cons _ _ _ _ (VObj (length (heap s))) s1);
      [| simpl; by rewrite (Result_mapError_Err _ _ _ _ H)].
    split; [done |]. split; [done |]. split.
    { rewrite Hlen. subst s1. simpl. rewrite length_alloc. lia. }
    split; [done |].
    assert (results_frozen s s') as Hall by by apply results_frozen_trans with s1.
    split; [done | by apply (is_Err_frozen s)].
Qed.

Lemma mapError_chain_composes_witness :
  let gs := [λ _, VStr "New error";
             λ x, match x with VStr t => VStr (t +:+ "!") | _ => x end] in
  is_Err two_results (VObj 1) (VStr "Something went wrong")
  ∧ ∃ r' s', chain (VObj 1) ((λ g, LMapError (pure_fn g)) <$> gs) two_results
             = (Normal r', s')
      ∧ is_Err s' r' (VStr "New error!")
      ∧ length (heap s') = 4.
Proof.
  intros gs. split; [exact two_results_Err |].
  destruct (mapError_chain_composes gs two_results (VObj 1) _ two_results_Err)
    as (r' & s' & Hc & Hok & Hlen & _).
  exists r', s'. split; [exact Hc |]. split; [exact Hok | exact Hlen].
Defined.

Lemma preserves_settle (reaction : JS val) :
  preserves_results reaction → preserves_results (settle reaction).
Proof.
  intros H s. specialize (H s). unfold settle.
  by destruct (reaction s) as [[v | e] s1].
Qed.

Lemma preserves_promise_then p (f : val → JS val) :
  encapsulated f → preserves_results (promise_then p f).
Proof.
  intros H. destruct p as [| v | e]; simpl;
    [apply preserves_ret | by apply preserves_settle | apply preserves_ret].
Qed.

Lemma preserves_promise_catch p (f : val → JS val) :
  encapsulated f → preserves_results (promise_catch p f).
Proof.
  intros H. destruct p as [| v | e]; simpl;
    [apply preserves_ret | apply preserves_ret | by apply preserves_settle].
Qed.

Lemma preserves_async_function (body : JS promise) :
  preserves_results body → preserves_results (async_function body).
Proof.
  intros H s. specialize (H s). unfold async_function.
  by destruct (body s) as [[p | e] s1].
Qed.

Lemma preserves_runAsync (fn : JS promise) :
  preserves_results fn → preserves_results (Result.runAsync fn).
Proof.
  intros H. unfold Result.runAsync. apply preserves_async_function.
  apply preserves_bind; [done | intros p].
  apply preserves_bind; [| intros q].
  - apply preserves_promise_then. intros v. apply preserves_alloc.
  - apply preserves_promise_catch. intros v. apply preserves_alloc.
Qed.

(** X19.  The adapters change no instance that existed before the call:
    after [run(fn)] and after [runAsync(fn)], every [Ok] and [Err] instance
    is of the same class and holds the same value as before, given that [fn]
    itself does not reach into existing instances, which code outside the
    two classes cannot do. *)
Theorem adapters_leave_instances_alone (fn : JS val) (afn : JS promise) s :
  preserves_results fn → preserves_results afn →
  results_frozen s (Result.run fn s).2
  ∧ results_frozen s (Result.runAsync afn s).2
  ∧ (∀ x v, is_Ok s x v →
       is_Ok (Result.run fn s).2 x v ∧ is_Ok (Result.runAsync afn s).2 x v)
  ∧ (∀ x e, is_Err s x e →
       is_Err (Result.run fn s).2 x e ∧ is_Err (Result.runAsync afn s).2 x e).
Proof.
  intros Hfn Hafn.
  pose proof (preserves_run fn Hfn s) as Hr.
  pose proof (preserves_runAsync afn Hafn s) as Ha.
  split; [done |]. split; [done |]. split; intros x w H; split.
  - by apply (is_Ok_frozen s).
  - by apply (is_Ok_frozen s).
  - by apply (is_Err_frozen s).
  - by apply (is_Err_frozen s).
Qed.

Lemma adapters_leave_instances_alone_witness :
  let fn : JS val := e ← new_Error "Failure"; throw e in
  let afn : JS promise := settle fn in
  preserves_results fn ∧ preserves_results afn
  ∧ is_Ok (Result.run fn two_results).2 (VObj 0) (VNum 42)
  ∧ is_Err (Result.runAsync afn two_results).2 (VObj 1) (VStr "Something went wrong").
Proof.
  intros fn afn.
  assert (preserves_results fn) as Hfn.
  { apply preserves_bind; [apply preserves_alloc | intros e; apply preserves_throw]. }
  assert (preserves_results afn) as Hafn by by apply preserves_settle.
  split; [exact Hfn |]. split; [exact Hafn |].
  pose proof (adapters_leave_instances_alone fn afn two_results Hfn Hafn)
    as (_ & _ & Hok & Herr).
  split; [exact (proj1 (Hok _ _ two_results_Ok))
         | exact (proj2 (Herr _ _ two_results_Err))].
Defined.
